(** * Fraud-detection form: feature derivation and the analysis handler

    A shallow embedding of [app_fraud_detection.py]:

    - [dic_type], the dictionary that translates the labels of the form's
      select box into the codes the classifier was trained on;
    - [create_advanced_features], which copies a pandas DataFrame and adds
      twelve derived columns to the copy;
    - [analyse], the body of the "Analyser la Transaction" button: the
      dictionary lookup, the construction of the one-row DataFrame, the
      derivation and the two calls of the classifier.

    Numbers are IEEE-754 binary64 values (numpy's float64, the dtype of what
    [st.number_input] returns when its bounds are floats), embedded as Rocq's
    primitive floats.  DataFrames are mutable Python objects: they live in a
    store and are passed around by reference.  The classifier and numpy's
    [log1p] are external: they are variables of the development.

    The file has three parts: the embedding; lemmas on float64 rounding (a
    nonzero sum never rounds to zero, and addition and subtraction are exact
    when their result is representable); the properties of the program. *)

From Stdlib Require Import ZArith Lia Floats Reals Lra.
From stdpp Require Import gmap strings list.

Open Scope string_scope.

(** ** The value of a float64

    Float64 operations are specified by the axioms of the standard library
    on [Prim2SF]: a primitive float is a [spec_float], and each operation is
    the exact operation followed by rounding to nearest, ties to even. *)

(** The real number that a finite float64 denotes: mantissa times a power of
    two.  Infinities and NaN are given 0; they are excluded where it counts. *)
Definition SF2R (x : spec_float) : R :=
  match x with
  | S754_finite s m e => (IZR (cond_Zopp s (Z.pos m)) * powerRZ 2 e)%R
  | _ => 0%R
  end.

(** The same on primitive floats. *)
Definition float_value (x : float) : R := SF2R (Prim2SF x).

Definition finite_or_zero (x : spec_float) : bool :=
  match x with
  | S754_zero _ | S754_finite _ _ _ => true
  | _ => false
  end.

(** [r] is the float [z], up to the sign of a zero. *)
Definition SFrep (r z : spec_float) : Prop :=
  match z with
  | S754_finite _ _ _ => r = z
  | S754_zero _ => exists s, r = S754_zero s
  | _ => False
  end.

(** ** Python exceptions and the outcome of a computation *)

(** An exception is identified by the name of its class and its argument. *)
Record exn := Exn { exn_class : string; exn_arg : string }.

Definition KeyError (key : string) : exn := Exn "KeyError" key.

(** [Unmodelled] marks a run that leaves the fragment of pandas embedded here
    (an operand whose dtype is not float64, a dangling reference).  It is not
    a Python exception and nothing is claimed about such runs. *)
Inductive outcome (A : Type) : Type :=
  | Ok (a : A)
  | Raise (e : exn)
  | Unmodelled.
Arguments Ok {A} a.
Arguments Raise {A} e.
Arguments Unmodelled {A}.

(** ** Series and DataFrames *)

(** A column of a DataFrame: its dtype and its values, one per row. *)
Inductive series : Type :=
  | SObject (l : list string)
  | SFloat64 (l : list float)
  | SInt64 (l : list Z).

(** One cell of a column. *)
Inductive value : Type :=
  | VStr (s : string)
  | VFloat (x : float)
  | VInt (n : Z).

(** The columns of a DataFrame, in column order. *)
Definition frame : Type := list (string * series).

Definition series_cell (s : series) (i : nat) : option value :=
  match s with
  | SObject l => VStr <$> l !! i
  | SFloat64 l => VFloat <$> l !! i
  | SInt64 l => VInt <$> l !! i
  end.

(** [f[k]] on the columns: the column labelled [k], if there is one. *)
Fixpoint frame_get (k : string) (f : frame) : option series :=
  match f with
  | [] => None
  | (k', s) :: f' => if decide (k' = k) then Some s else frame_get k f'
  end.

(** [f[k] = s] on the columns: an existing column is replaced where it
    stands, a new one is appended after the last column. *)
Fixpoint frame_set (k : string) (s : series) (f : frame) : frame :=
  match f with
  | [] => [(k, s)]
  | (k', s') :: f' =>
      if decide (k' = k) then (k, s) :: f' else (k', s') :: frame_set k s f'
  end.

Definition frame_columns (f : frame) : list string := f.*1.

Definition cell (f : frame) (k : string) (i : nat) : option value :=
  s ← frame_get k f; series_cell s i.

(** ** Element-wise operations on series

    Each takes the float64 path of the numpy ufunc; the Python scalars [1],
    [0] and [200000] are converted to float64 by numpy before the operation.
    A comparison yields a series of booleans, which the program converts at
    once with [astype(int)]. *)

Definition series_sub (a b : series) : outcome series :=
  match a, b with
  | SFloat64 x, SFloat64 y => Ok (SFloat64 (zip_with PrimFloat.sub x y))
  | _, _ => Unmodelled
  end.

Definition series_div (a b : series) : outcome series :=
  match a, b with
  | SFloat64 x, SFloat64 y => Ok (SFloat64 (zip_with PrimFloat.div x y))
  | _, _ => Unmodelled
  end.

Definition series_add_scalar (a : series) (c : float) : outcome series :=
  match a with
  | SFloat64 x => Ok (SFloat64 ((fun v => PrimFloat.add v c) <$> x))
  | _ => Unmodelled
  end.

Definition series_eq_scalar (a : series) (c : float) : outcome (list bool) :=
  match a with
  | SFloat64 x => Ok ((fun v => PrimFloat.eqb v c) <$> x)
  | _ => Unmodelled
  end.

Definition series_gt_scalar (a : series) (c : float) : outcome (list bool) :=
  match a with
  | SFloat64 x => Ok ((fun v => PrimFloat.ltb c v) <$> x)
  | _ => Unmodelled
  end.

Definition astype_int (b : list bool) : series :=
  SInt64 ((fun v : bool => if v then 1%Z else 0%Z) <$> b).

(** ** The store and the monad of the program *)

Definition loc : Type := positive.

(** A call of the classifier, with the frame it was given. *)
Inductive call : Type :=
  | CallPredict (f : frame)
  | CallPredictProba (f : frame).

Record world : Type := World {
  heap : gmap loc frame;   (* the DataFrame objects that exist *)
  calls : list call        (* the calls the classifier has received *)
}.

Definition M (A : Type) : Type := world -> outcome A * world.

Definition ret {A} (a : A) : M A := fun w => (Ok a, w).

Definition bind {A B} (m : M A) (k : A -> M B) : M B :=
  fun w =>
    match m w with
    | (Ok a, w') => k a w'
    | (Raise e, w') => (Raise e, w')
    | (Unmodelled, w') => (Unmodelled, w')
    end.

Definition lift {A} (o : outcome A) : M A := fun w => (o, w).

#[global] Instance M_ret : MRet M := @ret.
#[global] Instance M_bind : MBind M := fun A B k m => bind m k.

(** [pd.DataFrame({...})]: a new object holding the given columns. *)
Definition DataFrame (cols : frame) : M loc :=
  fun w =>
    let l := fresh (dom (heap w)) in
    (Ok l, World (<[l := cols]> (heap w)) (calls w)).

(** [df.copy()]: a new object with the same columns; series are immutable
    values here, so the copy shares nothing with the original. *)
Definition copy (df : loc) : M loc :=
  fun w =>
    match heap w !! df with
    | Some f => DataFrame f w
    | None => (Unmodelled, w)
    end.

(** [df[k]]: [KeyError] when there is no column [k]. *)
Definition getitem (df : loc) (k : string) : M series :=
  fun w =>
    match heap w !! df with
    | Some f =>
        match frame_get k f with
        | Some s => (Ok s, w)
        | None => (Raise (KeyError k), w)
        end
    | None => (Unmodelled, w)
    end.

(** [df[k] = s]: updates the object in place. *)
Definition setitem (df : loc) (k : string) (s : series) : M unit :=
  fun w =>
    match heap w !! df with
    | Some f => (Ok tt, World (<[df := frame_set k s f]> (heap w)) (calls w))
    | None => (Unmodelled, w)
    end.

(** [d[k]] on a Python dict: [KeyError] when [k] is not a key. *)
Definition dict_getitem (d : gmap string string) (k : string) : M string :=
  fun w =>
    match d !! k with
    | Some v => (Ok v, w)
    | None => (Raise (KeyError k), w)
    end.

(** ** The program *)

Definition dic_type : gmap string string :=
  list_to_map [("PAIEMENT", "PAYMENT");
               ("TRANSFERT", "TRANSFER");
               ("RETRAIT", "CASH_OUT");
               ("DEPOT", "CASH_IN")].

(** The four codes the classifier was trained on. *)
Definition canonical_codes : list string :=
  ["PAYMENT"; "TRANSFER"; "CASH_OUT"; "CASH_IN"].

(** The options of the form's select box. *)
Definition type_labels : list string :=
  ["PAIEMENT"; "TRANSFERT"; "RETRAIT"; "DEPOT"].

(** The raw columns and the columns the derivation adds, in the order in
    which the program creates them. *)
Definition raw_columns : list string :=
  ["type"; "amount"; "oldbalanceOrg"; "newbalanceOrig";
   "oldbalanceDest"; "newbalanceDest"].

Definition derived_columns : list string :=
  ["balance_diff_orig"; "balance_diff_dest";
   "amount_to_oldbalance_orig"; "amount_to_oldbalance_dest";
   "error_balance_orig"; "error_balance_dest";
   "is_zero_balance_orig"; "is_zero_balance_dest"; "large_transaction";
   "log_amount"; "log_oldbalance_orig"; "log_oldbalance_dest"].

(** ** Rows of a frame *)

(** One raw transaction: the six fields the form collects. *)
Record raw_transaction : Type := RawTransaction {
  type : string;
  amount : float;
  oldbalanceOrg : float;
  newbalanceOrig : float;
  oldbalanceDest : float;
  newbalanceDest : float
}.

Definition str_cell (f : frame) (k : string) (i : nat) : option string :=
  match cell f k i with Some (VStr s) => Some s | _ => None end.

Definition float_cell (f : frame) (k : string) (i : nat) : option float :=
  match cell f k i with Some (VFloat x) => Some x | _ => None end.

Definition int_cell (f : frame) (k : string) (i : nat) : option Z :=
  match cell f k i with Some (VInt n) => Some n | _ => None end.

(** Row [i] of a frame read as a raw transaction: defined when the six raw
    columns exist, [type] with dtype object and the other five with dtype
    float64, and have a row [i]. *)
Definition raw_row (f : frame) (i : nat) : option raw_transaction :=
  ty ← str_cell f "type" i;
  a ← float_cell f "amount" i;
  oo ← float_cell f "oldbalanceOrg" i;
  no ← float_cell f "newbalanceOrig" i;
  od ← float_cell f "oldbalanceDest" i;
  nd ← float_cell f "newbalanceDest" i;
  Some (RawTransaction ty a oo no od nd).

Definition is_object (o : option series) : bool :=
  match o with Some (SObject _) => true | _ => false end.

Definition is_float64 (o : option series) : bool :=
  match o with Some (SFloat64 _) => true | _ => false end.

(** The declared types of the raw fields: a categorical [type] column and
    five float64 columns.  Nothing is asked of the values: negative numbers,
    infinities and NaN are float64 values too. *)
Definition has_raw_schema (f : frame) : bool :=
  is_object (frame_get "type" f)
  && is_float64 (frame_get "amount" f)
  && is_float64 (frame_get "oldbalanceOrg" f)
  && is_float64 (frame_get "newbalanceOrig" f)
  && is_float64 (frame_get "oldbalanceDest" f)
  && is_float64 (frame_get "newbalanceDest" f).

(** The columns of the one-row frame that the handler builds from the form. *)
Definition input_frame (r : raw_transaction) : frame :=
  [("type", SObject [type r]);
   ("amount", SFloat64 [amount r]);
   ("oldbalanceOrg", SFloat64 [oldbalanceOrg r]);
   ("newbalanceOrig", SFloat64 [newbalanceOrig r]);
   ("oldbalanceDest", SFloat64 [oldbalanceDest r]);
   ("newbalanceDest", SFloat64 [newbalanceDest r])].

(** The object a computation returned, read in the store it left. *)
Definition deref (r : outcome loc * world) : outcome frame :=
  match r with
  | (Ok l, w) =>
      match heap w !! l with Some f => Ok f | None => Unmodelled end
  | (Raise e, _) => Raise e
  | (Unmodelled, _) => Unmodelled
  end.

(** The state of a process that has created no DataFrame and has not called
    the classifier. *)
Definition initial_world : world := World ∅ [].

Definition IndexError (msg : string) : exn := Exn "IndexError" msg.

(** [a[i]] on a numpy array: [IndexError] out of range. *)
Definition array_getitem {A} (a : list A) (i : nat) : M A :=
  fun w =>
    match a !! i with
    | Some v => (Ok v, w)
    | None => (Raise (IndexError "index out of bounds"), w)
    end.

(** The twelve derived fields of one row. *)
Record derived_features : Type := DerivedFeatures {
  balance_diff_orig : float;
  balance_diff_dest : float;
  amount_to_oldbalance_orig : float;
  amount_to_oldbalance_dest : float;
  error_balance_orig : float;
  error_balance_dest : float;
  is_zero_balance_orig : Z;
  is_zero_balance_dest : Z;
  large_transaction : Z;
  log_amount : float;
  log_oldbalance_orig : float;
  log_oldbalance_dest : float
}.

(** Row [i] of a frame read as derived features: defined when the twelve
    derived columns exist with the dtypes the program gives them. *)
Definition derived_row (f : frame) (i : nat) : option derived_features :=
  bdo ← float_cell f "balance_diff_orig" i;
  bdd ← float_cell f "balance_diff_dest" i;
  ro ← float_cell f "amount_to_oldbalance_orig" i;
  rd ← float_cell f "amount_to_oldbalance_dest" i;
  eo ← float_cell f "error_balance_orig" i;
  ed ← float_cell f "error_balance_dest" i;
  zo ← int_cell f "is_zero_balance_orig" i;
  zd ← int_cell f "is_zero_balance_dest" i;
  lt ← int_cell f "large_transaction" i;
  la ← float_cell f "log_amount" i;
  lo ← float_cell f "log_oldbalance_orig" i;
  ld ← float_cell f "log_oldbalance_dest" i;
  Some (DerivedFeatures bdo bdd ro rd eo ed zo zd lt la lo ld).

(** The transaction of the specification's worked example. *)
Definition example_raw : raw_transaction :=
  RawTransaction "CASH_OUT" 1000 10000 9000 0 0.

(** A store holding one DataFrame, the one-row frame of [example_raw]. *)
Definition example_world : world :=
  World {[1%positive := input_frame example_raw]} [].

(** A deposit on an account that held ten cents: origin balance
    0.1 -> 10000 (0.1 is the float64 number 0x1.999999999999ap-4). *)
Definition deposit_raw : raw_transaction :=
  RawTransaction "CASH_IN" 9999.5 0x1.999999999999ap-4 10000 0 0.

(** A record of the declared types whose origin balance is minus one. *)
Definition minus_one_raw : raw_transaction :=
  RawTransaction "PAYMENT" 1000 (-1) 0 0 0.

(** Stand-ins for the external functions, for statements about one concrete
    run: a float function in the place of [log1p] and a classifier that
    answers nothing.  The statements that use them hold for any choice. *)
Definition any_log1p (x : float) : float := x.

Definition no_classifier {A} (f : frame) : outcome A := Unmodelled.

(** ** Further definitions for the properties of the program *)

(** The five numeric columns, in the order in which
    [create_advanced_features] first reads them. *)
Definition read_order : list string :=
  ["oldbalanceOrg"; "newbalanceOrig"; "newbalanceDest"; "oldbalanceDest";
   "amount"].

(** The number of rows of a column. *)
Definition series_length (s : series) : nat :=
  match s with
  | SObject l => length l
  | SFloat64 l => length l
  | SInt64 l => length l
  end.

(** A sequence of column assignments, first to last. *)
Definition frame_set_all (kvs : list (string * series)) (f : frame) : frame :=
  foldl (fun g kv => frame_set kv.1 kv.2 g) f kvs.
(** Column [k] of [f] is a float64 column of [n] rows. *)
Definition float64_rows (f : frame) (n : nat) (k : string) : Prop :=
  exists l, frame_get k f = Some (SFloat64 l) /\ length l = n.

(** The three derived columns that [astype(int)] produces. *)
Definition indicator_columns : list string :=
  ["is_zero_balance_orig"; "is_zero_balance_dest"; "large_transaction"].
(** A classifier method that gives the same answer for every frame. *)
Definition answer_with {A} (o : outcome A) (f : frame) : outcome A := o.

(** A store whose only DataFrame has a single column, [oldbalanceOrg]. *)
Definition one_column_world : world :=
  World {[1%positive := [("oldbalanceOrg", SFloat64 [10000%float])]]} [].

(** Answers of a two-class and of a one-class classifier for one row. *)
Definition two_class_probabilities : list (list float) := [[0.25; 0.75]%float].

Definition one_class_probabilities : list (list float) := [[1%float]].

(** Closed goals about membership in a list of labels, by evaluation. *)
Ltac by_eval := apply (bool_decide_unpack _); vm_compute; exact I.

Section Application.

(** numpy's [log1p] on float64, the rounded natural logarithm of [1 + x]:
    a function of the C library, taken as given. *)
Variable log1p : float -> float.

Definition np_log1p (a : series) : outcome series :=
  match a with
  | SFloat64 x => Ok (SFloat64 (log1p <$> x))
  | _ => Unmodelled
  end.

Definition create_advanced_features (df : loc) : M loc :=
  df ← copy df;
  (* df['balance_diff_orig'] = df['oldbalanceOrg'] - df['newbalanceOrig'] *)
  a ← getitem df "oldbalanceOrg";
  b ← getitem df "newbalanceOrig";
  v ← lift (series_sub a b);
  setitem df "balance_diff_orig" v;;
  (* df['balance_diff_dest'] = df['newbalanceDest'] - df['oldbalanceDest'] *)
  a ← getitem df "newbalanceDest";
  b ← getitem df "oldbalanceDest";
  v ← lift (series_sub a b);
  setitem df "balance_diff_dest" v;;
  (* df['amount_to_oldbalance_orig'] = df['amount'] / (df['oldbalanceOrg'] + 1) *)
  a ← getitem df "amount";
  b ← getitem df "oldbalanceOrg";
  b ← lift (series_add_scalar b 1);
  v ← lift (series_div a b);
  setitem df "amount_to_oldbalance_orig" v;;
  (* df['amount_to_oldbalance_dest'] = df['amount'] / (df['oldbalanceDest'] + 1) *)
  a ← getitem df "amount";
  b ← getitem df "oldbalanceDest";
  b ← lift (series_add_scalar b 1);
  v ← lift (series_div a b);
  setitem df "amount_to_oldbalance_dest" v;;
  (* df['error_balance_orig'] = df['balance_diff_orig'] - df['amount'] *)
  a ← getitem df "balance_diff_orig";
  b ← getitem df "amount";
  v ← lift (series_sub a b);
  setitem df "error_balance_orig" v;;
  (* df['error_balance_dest'] = df['balance_diff_dest'] - df['amount'] *)
  a ← getitem df "balance_diff_dest";
  b ← getitem df "amount";
  v ← lift (series_sub a b);
  setitem df "error_balance_dest" v;;
  (* df['is_zero_balance_orig'] = (df['newbalanceOrig'] == 0).astype(int) *)
  a ← getitem df "newbalanceOrig";
  c ← lift (series_eq_scalar a 0);
  setitem df "is_zero_balance_orig" (astype_int c);;
  (* df['is_zero_balance_dest'] = (df['oldbalanceDest'] == 0).astype(int) *)
  a ← getitem df "oldbalanceDest";
  c ← lift (series_eq_scalar a 0);
  setitem df "is_zero_balance_dest" (astype_int c);;
  (* df['large_transaction'] = (df['amount'] > 200000).astype(int) *)
  a ← getitem df "amount";
  c ← lift (series_gt_scalar a 200000);
  setitem df "large_transaction" (astype_int c);;
  (* df['log_amount'] = np.log1p(df['amount']) *)
  a ← getitem df "amount";
  v ← lift (np_log1p a);
  setitem df "log_amount" v;;
  (* df['log_oldbalance_orig'] = np.log1p(df['oldbalanceOrg']) *)
  a ← getitem df "oldbalanceOrg";
  v ← lift (np_log1p a);
  setitem df "log_oldbalance_orig" v;;
  (* df['log_oldbalance_dest'] = np.log1p(df['oldbalanceDest']) *)
  a ← getitem df "oldbalanceDest";
  v ← lift (np_log1p a);
  setitem df "log_oldbalance_dest" v;;
  mret df.

(** The columns [create_advanced_features] leaves in the copy when the five
    numeric columns are float64 series [a], [oo], [no], [od] and [nd]. *)
Definition enriched_frame (f : frame) (a oo no od nd : list float) : frame :=
  let bdo := zip_with PrimFloat.sub oo no in
  let bdd := zip_with PrimFloat.sub nd od in
  let plus1 := fun v => PrimFloat.add v 1 in
  let indicator := fun v : bool => if v then 1%Z else 0%Z in
  frame_set "log_oldbalance_dest" (SFloat64 (log1p <$> od))
  (frame_set "log_oldbalance_orig" (SFloat64 (log1p <$> oo))
  (frame_set "log_amount" (SFloat64 (log1p <$> a))
  (frame_set "large_transaction"
     (SInt64 (indicator <$> ((fun v => PrimFloat.ltb 200000 v) <$> a)))
  (frame_set "is_zero_balance_dest"
     (SInt64 (indicator <$> ((fun v => PrimFloat.eqb v 0) <$> od)))
  (frame_set "is_zero_balance_orig"
     (SInt64 (indicator <$> ((fun v => PrimFloat.eqb v 0) <$> no)))
  (frame_set "error_balance_dest" (SFloat64 (zip_with PrimFloat.sub bdd a))
  (frame_set "error_balance_orig" (SFloat64 (zip_with PrimFloat.sub bdo a))
  (frame_set "amount_to_oldbalance_dest"
     (SFloat64 (zip_with PrimFloat.div a (plus1 <$> od)))
  (frame_set "amount_to_oldbalance_orig"
     (SFloat64 (zip_with PrimFloat.div a (plus1 <$> oo)))
  (frame_set "balance_diff_dest" (SFloat64 bdd)
  (frame_set "balance_diff_orig" (SFloat64 bdo) f))))))))))).

(** The formulas of section 4.1 of the specification, in float64 arithmetic;
    [ln(1 + x)] is what [log1p] computes. *)
Definition spec_formulas (r : raw_transaction) : derived_features :=
  let bdo := (oldbalanceOrg r - newbalanceOrig r)%float in
  let bdd := (newbalanceDest r - oldbalanceDest r)%float in
  {| balance_diff_orig := bdo;
     balance_diff_dest := bdd;
     amount_to_oldbalance_orig := (amount r / (oldbalanceOrg r + 1))%float;
     amount_to_oldbalance_dest := (amount r / (oldbalanceDest r + 1))%float;
     error_balance_orig := (bdo - amount r)%float;
     error_balance_dest := (bdd - amount r)%float;
     is_zero_balance_orig := if (newbalanceOrig r =? 0)%float then 1 else 0;
     is_zero_balance_dest := if (oldbalanceDest r =? 0)%float then 1 else 0;
     large_transaction := if (200000 <? amount r)%float then 1 else 0;
     log_amount := log1p (amount r);
     log_oldbalance_orig := log1p (oldbalanceOrg r);
     log_oldbalance_dest := log1p (oldbalanceDest r) |}.

(** The classifier: a pickled scikit-learn pipeline loaded at start-up, not
    part of the repository.  Its two methods are taken as given; each may
    raise.  Every call is recorded in [calls]. *)
Variable model_predict : frame -> outcome (list Z).
Variable model_predict_proba : frame -> outcome (list (list float)).

Definition predict (df : loc) : M (list Z) :=
  fun w =>
    match heap w !! df with
    | Some f => (model_predict f, World (heap w) (calls w ++ [CallPredict f]))
    | None => (Unmodelled, w)
    end.

Definition predict_proba (df : loc) : M (list (list float)) :=
  fun w =>
    match heap w !! df with
    | Some f =>
        (model_predict_proba f, World (heap w) (calls w ++ [CallPredictProba f]))
    | None => (Unmodelled, w)
    end.

(** The body of [if st.button("Analyser la Transaction")], up to the values
    it displays: the predicted label and the probability of fraud. *)
Definition analyse (transaction_type : string)
    (amount oldbalanceOrg newbalanceOrig oldbalanceDest newbalanceDest : float)
    : M (Z * float) :=
  (* input_data = pd.DataFrame({"type": [dic_type[transaction_type]], ...}) *)
  ty ← dict_getitem dic_type transaction_type;
  input_data ← DataFrame (input_frame
    (RawTransaction ty amount oldbalanceOrg newbalanceOrig
                    oldbalanceDest newbalanceDest));
  (* input_data_enhanced = create_advanced_features(input_data) *)
  input_data_enhanced ← create_advanced_features input_data;
  (* prediction = model.predict(input_data_enhanced)[0] *)
  p ← predict input_data_enhanced;
  prediction ← array_getitem p 0;
  (* probability = model.predict_proba(input_data_enhanced)[0, 1] *)
  q ← predict_proba input_data_enhanced;
  q0 ← array_getitem q 0;
  probability ← array_getitem q0 1;
  mret (prediction, probability).

(** The frame that the handler passes to the classifier for the form values
    [r] (see [analyse_reaches_classifier]). *)
Definition submitted_frame (r : raw_transaction) : frame :=
  enriched_frame (input_frame r) [amount r] [oldbalanceOrg r]
    [newbalanceOrig r] [oldbalanceDest r] [newbalanceDest r].

(** ** Float64 arithmetic: rounding, and when it is exact *)

Local Open Scope Z_scope.

Lemma iter_pos_nat {A} (f : A -> A) (p : positive) (x : A) :
  SpecFloat.iter_pos f p x = Nat.iter (Pos.to_nat p) f x.
Proof.
  revert x. induction p as [p IH|p IH|]; intros x.
  - change (SpecFloat.iter_pos f p~1 x) with (SpecFloat.iter_pos f p (SpecFloat.iter_pos f p (f x))).
    rewrite !IH, Pos2Nat.inj_xI, Nat.iter_succ_r.
    replace (2 * Pos.to_nat p)%nat with (Pos.to_nat p + Pos.to_nat p)%nat
      by lia.
    rewrite Nat.iter_add. reflexivity.
  - change (SpecFloat.iter_pos f p~0 x) with (SpecFloat.iter_pos f p (SpecFloat.iter_pos f p x)).
    rewrite !IH, Pos2Nat.inj_xO.
    replace (2 * Pos.to_nat p)%nat with (Pos.to_nat p + Pos.to_nat p)%nat
      by lia.
    rewrite Nat.iter_add. reflexivity.
  - reflexivity.
Qed.

Lemma shr_1_m (mrs : shr_record) :
  0 <= shr_m mrs -> shr_m (shr_1 mrs) = shr_m mrs / 2.
Proof.
  destruct mrs as [m r s]. simpl. intros Hm.
  destruct m as [|[p|p|]|p]; simpl; try reflexivity; try lia.
  - apply Z.div_unique with 1; lia.
  - apply Z.div_unique with 0; lia.
Qed.

Lemma shr_iter_m (n : nat) (mrs : shr_record) :
  0 <= shr_m mrs ->
  shr_m (Nat.iter n shr_1 mrs) = shr_m mrs / 2 ^ Z.of_nat n.
Proof.
  intros Hm. induction n as [|n IH].
  - simpl. rewrite Z.div_1_r. reflexivity.
  - assert (Hp : 0 < 2 ^ Z.of_nat n) by (apply Z.pow_pos_nonneg; lia).
    rewrite Nat2Z.inj_succ, Z.pow_succ_r by lia. simpl.
    rewrite shr_1_m.
    + rewrite IH, Z.div_div; [f_equal; apply Z.mul_comm | | lia].
      apply Z.neq_sym, Z.lt_neq, Hp.
    + rewrite IH. apply Z.div_pos; lia.
Qed.

Lemma digits2_pos_bounds (p : positive) :
  2 ^ (Z.pos (digits2_pos p) - 1) <= Z.pos p < 2 ^ Z.pos (digits2_pos p).
Proof.
  induction p as [p IH|p IH|]; simpl digits2_pos.
  - rewrite Pos2Z.inj_succ.
    replace (Z.succ (Z.pos (digits2_pos p)) - 1) with (Z.succ (Z.pos (digits2_pos p) - 1)) by lia.
    rewrite !Z.pow_succ_r by lia. lia.
  - rewrite Pos2Z.inj_succ.
    replace (Z.succ (Z.pos (digits2_pos p)) - 1) with (Z.succ (Z.pos (digits2_pos p) - 1)) by lia.
    rewrite !Z.pow_succ_r by lia. lia.
  - simpl. lia.
Qed.

Lemma fexp_ge_emin (e : Z) : emin <= fexp prec emax e.
Proof. unfold fexp. lia. Qed.

Lemma shr_fexp_pos (m : positive) (e : Z) (l : location) :
  emin <= e ->
  0 < shr_m (fst (shr_fexp prec emax (Z.pos m) e l))
  /\ emin <= snd (shr_fexp prec emax (Z.pos m) e l).
Proof.
  intros He. unfold shr_fexp, shr.
  set (d := Zdigits2 (Z.pos m)).
  assert (Hd := digits2_pos_bounds m). fold (Zdigits2 (Z.pos m)) in Hd.
  fold d in Hd.
  assert (Hrec : shr_m (shr_record_of_loc (Z.pos m) l) = Z.pos m)
    by (destruct l as [|[]]; reflexivity).
  destruct (fexp prec emax (d + e) - e) as [|n|n] eqn:En; simpl fst; simpl snd.
  - rewrite Hrec. lia.
  - rewrite iter_pos_nat, shr_iter_m, Hrec by (rewrite Hrec; lia).
    rewrite positive_nat_Z. split.
    + apply Z.div_str_pos. split; [apply Z.pow_pos_nonneg; lia|].
      assert (Z.pos n <= d - 1).
      { unfold fexp, SpecFloat.emin, prec, emax in *. lia. }
      transitivity (2 ^ (d - 1)); [|lia].
      apply Z.pow_le_mono_r; lia.
    + rewrite <- En. assert (H := fexp_ge_emin (d + e)). lia.
  - rewrite Hrec. lia.
Qed.

Lemma round_nearest_even_pos (m : Z) (l : location) :
  0 < m -> 0 < round_nearest_even m l.
Proof.
  intros Hm. destruct l as [|[]]; simpl; try lia.
  destruct (Z.even m); lia.
Qed.

(** Rounding a nonzero mantissa whose exponent is at least [emin] never
    gives a zero or a NaN. *)
Lemma binary_round_aux_nonzero (s : bool) (m : positive) (e : Z) (l : location) :
  emin <= e ->
  (exists m' e', binary_round_aux prec emax s (Z.pos m) e l = S754_finite s m' e')
  \/ binary_round_aux prec emax s (Z.pos m) e l = S754_infinity s.
Proof.
  intros He. unfold binary_round_aux.
  destruct (shr_fexp_pos m e l He) as [H1 H2].
  destruct (shr_fexp prec emax (Z.pos m) e l) as [mrs' e']. simpl in H1, H2.
  assert (H3 := round_nearest_even_pos _ (loc_of_shr_record mrs') H1).
  destruct (round_nearest_even (shr_m mrs') (loc_of_shr_record mrs'))
    as [|m2|m2]; try lia.
  destruct (shr_fexp_pos m2 e' loc_Exact H2) as [H4 H5].
  destruct (shr_fexp prec emax (Z.pos m2) e' loc_Exact) as [mrs'' e''].
  simpl in H4, H5.
  destruct (shr_m mrs'') as [|m3|m3]; try lia.
  destruct (e'' <=? emax - prec); eauto.
Qed.

Lemma binary_round_nonzero (s : bool) (m : positive) (e : Z) :
  emin <= e ->
  (exists m' e', binary_round prec emax s m e = S754_finite s m' e')
  \/ binary_round prec emax s m e = S754_infinity s.
Proof.
  intros He. unfold binary_round.
  assert (Ht := fexp_ge_emin (Z.pos (digits2_pos m) + e)).
  unfold shl_align.
  destruct (fexp prec emax (Z.pos (digits2_pos m) + e) - e) eqn:E;
    apply binary_round_aux_nonzero; lia.
Qed.

Lemma valid_finite_emin (s : bool) (m : positive) (e : Z) :
  valid_binary (S754_finite s m e) = true -> emin <= e.
Proof.
  unfold SpecFloat.valid_binary, SpecFloat.bounded, canonical_mantissa.
  intros H. apply andb_prop in H as [H _]. apply Z.eqb_eq in H.
  rewrite <- H. apply fexp_ge_emin.
Qed.

(** A non-negative float64 plus one is not zero. *)
Lemma add_one_nonzero (x : float) :
  (0 <=? x)%float = true -> (x + 1 =? 0)%float = false.
Proof.
  rewrite FloatAxioms.leb_spec, FloatAxioms.eqb_spec, FloatAxioms.add_spec.
  assert (Hv := Prim2SF_valid x).
  change (Prim2SF 0) with (S754_zero false).
  change (Prim2SF 1) with (S754_finite false 4503599627370496 (-52)).
  destruct (Prim2SF x) as [s|s| |[] m e]; try discriminate.
  - intros _. destruct s; reflexivity.
  - destruct s; [discriminate|reflexivity].
  - intros _. apply valid_finite_emin in Hv.
    unfold SF64add, SFadd. cbv zeta.
    set (ez := Z.min e (-52)).
    change (cond_Zopp false ?z) with z.
    change (Z.pos ?a + Z.pos ?b) with (Z.pos (a + b)).
    unfold binary_normalize.
    destruct (binary_round_nonzero false
                (fst (shl_align m e ez)
                 + fst (shl_align 4503599627370496 (-52) ez)) ez)
      as [(m' & e' & ->)| ->].
    + unfold SpecFloat.emin, prec, emax in *. lia.
    + reflexivity.
    + reflexivity.
Qed.

(** A non-negative float64 is greater than minus one. *)
Lemma nonneg_gt_minus_one (x : float) :
  (0 <=? x)%float = true -> (-1 <? x)%float = true.
Proof.
  rewrite FloatAxioms.leb_spec, FloatAxioms.ltb_spec.
  change (Prim2SF 0) with (S754_zero false).
  change (Prim2SF (-1)) with (S754_finite true 4503599627370496 (-52)).
  destruct (Prim2SF x) as [s|s| |[] m e]; try discriminate; try reflexivity.
  destruct s; [discriminate|reflexivity].
Qed.

(** ** Powers of two *)

Lemma powerRZ_2_pos (e : Z) : (0 < powerRZ 2 e)%R.
Proof. apply powerRZ_lt. lra. Qed.

Lemma powerRZ_2_nonneg (k : Z) : 0 <= k -> powerRZ 2 k = IZR (2 ^ k).
Proof.
  intros Hk. rewrite <- (Z2Nat.id k) by assumption.
  rewrite <- pow_powerRZ, pow_IZR. reflexivity.
Qed.

(** Two dyadic numbers are equal when their mantissas agree once aligned. *)
Lemma dyadic_eq_inv (a b ea eb : Z) :
  (IZR a * powerRZ 2 ea = IZR b * powerRZ 2 eb)%R ->
  ea <= eb ->
  a = b * 2 ^ (eb - ea).
Proof.
  intros H Hle.
  replace eb with ((eb - ea) + ea) in H at 1 by lia.
  rewrite powerRZ_add in H by (apply Rgt_not_eq; lra).
  rewrite (powerRZ_2_nonneg (eb - ea)) in H by lia.
  rewrite <- Rmult_assoc, <- mult_IZR in H.
  apply Rmult_eq_reg_r in H.
  - apply eq_IZR. exact H.
  - apply Rgt_not_eq, Rlt_gt, powerRZ_2_pos.
Qed.

Lemma digits2_pos_unique (p : positive) (d : Z) :
  2 ^ (d - 1) <= Z.pos p < 2 ^ d -> Z.pos (digits2_pos p) = d.
Proof.
  intros [H1 H2]. destruct (digits2_pos_bounds p) as [H3 H4].
  assert (0 < d).
  { destruct (Z.lt_trichotomy d 0) as [Hd|[Hd|Hd]]; [| |exact Hd].
    - rewrite Z.pow_neg_r in H2 by lia. lia.
    - subst d. simpl in H2. lia. }
  destruct (Z.lt_trichotomy (Z.pos (digits2_pos p)) d) as [Hd|[Hd|Hd]].
  - assert (2 ^ Z.pos (digits2_pos p) <= 2 ^ (d - 1))
      by (apply Z.pow_le_mono_r; lia). lia.
  - exact Hd.
  - assert (2 ^ d <= 2 ^ (Z.pos (digits2_pos p) - 1))
      by (apply Z.pow_le_mono_r; lia). lia.
Qed.

Lemma digits2_pos_shift (p m : positive) (k : Z) :
  0 <= k -> Z.pos p = Z.pos m * 2 ^ k ->
  Z.pos (digits2_pos p) = Z.pos (digits2_pos m) + k.
Proof.
  intros Hk Hp. apply digits2_pos_unique.
  destruct (digits2_pos_bounds m) as [H1 H2]. rewrite Hp.
  assert (H0 : 0 < 2 ^ k) by (apply Z.pow_pos_nonneg; lia).
  replace (Z.pos (digits2_pos m) + k - 1)
    with ((Z.pos (digits2_pos m) - 1) + k) by lia.
  rewrite !Z.pow_add_r by lia. split.
  - apply Z.mul_le_mono_nonneg_r; lia.
  - apply Z.mul_lt_mono_pos_r; lia.
Qed.

Lemma pos_iter_xO (p d : positive) :
  Z.pos (Pos.iter xO p d) = Z.pos p * 2 ^ Z.pos d.
Proof.
  induction d as [|d IH] using Pos.peano_ind.
  - simpl. lia.
  - rewrite Pos.iter_succ, Pos2Z.inj_succ, Z.pow_succ_r by lia.
    rewrite Pos2Z.inj_xO, IH. lia.
Qed.

(** Shifting out [k] zero bits is exact. *)
Lemma shr_iter_exact (k : nat) (m : positive) (p : Z) :
  p = Z.pos m * 2 ^ Z.of_nat k ->
  Nat.iter k shr_1 (Build_shr_record p false false)
  = Build_shr_record (Z.pos m) false false.
Proof.
  revert m p. induction k as [|k IH]; intros m p Hp.
  - simpl in *. f_equal. lia.
  - simpl Nat.iter. rewrite (IH (m~0)%positive).
    + reflexivity.
    + rewrite Hp, Nat2Z.inj_succ, Z.pow_succ_r by lia. lia.
Qed.

Lemma bounded_inv (m : positive) (e : Z) :
  SpecFloat.bounded prec emax m e = true ->
  fexp prec emax (Z.pos (digits2_pos m) + e) = e /\ e <= emax - prec.
Proof.
  unfold SpecFloat.bounded, canonical_mantissa. intros H.
  apply andb_prop in H as [H1 H2].
  apply Z.eqb_eq in H1. apply Z.leb_le in H2. split; assumption.
Qed.

Lemma shr_fexp_canonical (m : positive) (e : Z) :
  SpecFloat.bounded prec emax m e = true ->
  shr_fexp prec emax (Z.pos m) e loc_Exact
  = (Build_shr_record (Z.pos m) false false, e).
Proof.
  intros H. apply bounded_inv in H as [H _].
  unfold shr_fexp. simpl Zdigits2. rewrite H, Z.sub_diag. reflexivity.
Qed.

(** Rounding a canonical mantissa changes nothing. *)
Lemma binary_round_aux_canonical (s : bool) (m : positive) (e : Z) :
  SpecFloat.bounded prec emax m e = true ->
  binary_round_aux prec emax s (Z.pos m) e loc_Exact = S754_finite s m e.
Proof.
  intros H. unfold binary_round_aux.
  rewrite (shr_fexp_canonical m e H).
  cbn [shr_m loc_of_shr_record round_nearest_even].
  rewrite (shr_fexp_canonical m e H).
  cbn [shr_m].
  apply bounded_inv in H as [_ H]. apply Z.leb_le in H.
  rewrite H. reflexivity.
Qed.

(** Rounding a canonical mantissa followed by [k] zero bits removes them. *)
Lemma binary_round_aux_shifted (s : bool) (p m : positive) (e k : Z) :
  SpecFloat.bounded prec emax m e = true ->
  0 < k ->
  Z.pos p = Z.pos m * 2 ^ k ->
  binary_round_aux prec emax s (Z.pos p) (e - k) loc_Exact = S754_finite s m e.
Proof.
  intros H Hk Hp.
  assert (Hd := digits2_pos_shift p m k ltac:(lia) Hp).
  destruct (bounded_inv m e H) as [Hc Hb].
  unfold binary_round_aux.
  assert (Hs : shr_fexp prec emax (Z.pos p) (e - k) loc_Exact
               = (Build_shr_record (Z.pos m) false false, e)).
  { unfold shr_fexp. simpl Zdigits2. rewrite Hd.
    replace (Z.pos (digits2_pos m) + k + (e - k))
      with (Z.pos (digits2_pos m) + e) by lia.
    rewrite Hc. replace (e - (e - k)) with k by lia.
    destruct k as [|q|q]; try lia.
    unfold shr. simpl shr_record_of_loc.
    rewrite iter_pos_nat, (shr_iter_exact _ m).
    - f_equal. lia.
    - rewrite positive_nat_Z. exact Hp. }
  rewrite Hs.
  cbn [shr_m loc_of_shr_record round_nearest_even].
  rewrite (shr_fexp_canonical m e H).
  cbn [shr_m].
  apply Z.leb_le in Hb. rewrite Hb. reflexivity.
Qed.

(** Normalising a number that a canonical float represents gives that
    float. *)
Lemma binary_round_exact (s : bool) (p m : positive) (ez e : Z) :
  SpecFloat.bounded prec emax m e = true ->
  (IZR (Z.pos p) * powerRZ 2 ez = IZR (Z.pos m) * powerRZ 2 e)%R ->
  binary_round prec emax s p ez = S754_finite s m e.
Proof.
  intros H Hv. destruct (bounded_inv m e H) as [Hc Hb].
  unfold binary_round.
  destruct (Z_lt_le_dec e ez) as [Hlt|Hle].
  - (* the float has the smaller exponent: align to the left *)
    symmetry in Hv. apply dyadic_eq_inv in Hv; [|lia].
    assert (Hd := digits2_pos_shift m p (ez - e) ltac:(lia) Hv).
    replace (Z.pos (digits2_pos p) + ez)
      with (Z.pos (digits2_pos m) + e) by lia.
    rewrite Hc. unfold shl_align.
    destruct (e - ez) as [|q|q] eqn:Eq; try lia.
    assert (Hm : Pos.iter xO p q = m).
    { apply Pos2Z.inj. rewrite pos_iter_xO, Hv. f_equal. f_equal. lia. }
    rewrite Hm. apply binary_round_aux_canonical. exact H.
  - apply dyadic_eq_inv in Hv; [|lia].
    assert (Hd := digits2_pos_shift p m (e - ez) ltac:(lia) Hv).
    replace (Z.pos (digits2_pos p) + ez)
      with (Z.pos (digits2_pos m) + e) by lia.
    rewrite Hc. unfold shl_align.
    destruct (e - ez) as [|q|q] eqn:Eq; try lia.
    + assert (e = ez) by lia. subst ez.
      simpl in Hv. assert (p = m) by lia. subst p.
      apply binary_round_aux_canonical. exact H.
    + replace ez with (e - Z.pos q) by lia.
      apply binary_round_aux_shifted; [exact H|lia|exact Hv].
Qed.

Lemma IZR_cond_Zopp (s : bool) (z : Z) :
  IZR (cond_Zopp s z) = (if s then - IZR z else IZR z)%R.
Proof. destruct s; simpl; [apply opp_IZR|reflexivity]. Qed.

Lemma SF2R_finite_sign (s : bool) (m : positive) (e : Z) :
  if s then (SF2R (S754_finite s m e) < 0)%R
  else (0 < SF2R (S754_finite s m e))%R.
Proof.
  assert (Hm : (0 < IZR (Z.pos m))%R) by (apply IZR_lt; lia).
  assert (He := powerRZ_2_pos e).
  simpl. rewrite IZR_cond_Zopp. destruct s.
  - rewrite <- Ropp_mult_distr_l. apply Ropp_lt_gt_0_contravar.
    apply Rmult_lt_0_compat; assumption.
  - apply Rmult_lt_0_compat; assumption.
Qed.

Lemma SFrep_value (r z : spec_float) : SFrep r z -> SF2R r = SF2R z.
Proof.
  destruct z; simpl; try contradiction.
  - intros [s' ->]. reflexivity.
  - intros ->. reflexivity.
Qed.

Lemma SFrep_finite (r z : spec_float) : SFrep r z -> finite_or_zero r = true.
Proof.
  destruct z; simpl; try contradiction.
  - intros [s' ->]. reflexivity.
  - intros ->. reflexivity.
Qed.

Lemma SFrep_eqb (r z : spec_float) : SFrep r z -> SFeqb r z = true.
Proof.
  destruct z as [s|s| |s m e]; simpl; try contradiction.
  - intros [s' ->]. reflexivity.
  - intros ->. unfold SFeqb, SFcompare.
    rewrite Z.compare_refl, Pos.compare_cont_refl. destruct s; reflexivity.
Qed.

(** Normalising [z * 2^ez] gives the float that represents this number,
    when there is one. *)
Lemma binary_normalize_exact (z : Z) (ez : Z) (x : spec_float) :
  valid_binary x = true ->
  finite_or_zero x = true ->
  (IZR z * powerRZ 2 ez = SF2R x)%R ->
  SFrep (binary_normalize prec emax z ez false) x.
Proof.
  intros Hv Hf Hx.
  assert (He := powerRZ_2_pos ez).
  destruct x as [s|s| |s m e]; try discriminate.
  - (* zero *)
    simpl in Hx. apply Rmult_integral in Hx as [Hx|Hx]; [|lra].
    apply eq_IZR in Hx. subst z. exists false. reflexivity.
  - assert (Hs := SF2R_finite_sign s m e). rewrite <- Hx in Hs.
    simpl in Hv. simpl SFrep.
    destruct z as [|p|p]; simpl binary_normalize.
    + rewrite Rmult_0_l in Hs. destruct s; lra.
    + assert (Hp : (0 < IZR (Z.pos p) * powerRZ 2 ez)%R)
        by (apply Rmult_lt_0_compat; [apply IZR_lt; lia|assumption]).
      destruct s; [lra|].
      apply binary_round_exact; assumption.
    + assert (Hp : (0 < IZR (Z.pos p) * powerRZ 2 ez)%R)
        by (apply Rmult_lt_0_compat; [apply IZR_lt; lia|assumption]).
      change (Z.neg p) with (- Z.pos p) in Hx, Hs.
      rewrite opp_IZR in Hx, Hs.
      destruct s; [|lra].
      apply binary_round_exact; [assumption|].
      simpl in Hx. change (Z.neg m) with (- Z.pos m) in Hx.
      rewrite opp_IZR in Hx. lra.
Qed.

(** Two valid floats with the same value are the same float, up to the sign
    of a zero. *)
Lemma SFrep_of_value (x z : spec_float) :
  valid_binary x = true -> finite_or_zero x = true ->
  valid_binary z = true -> finite_or_zero z = true ->
  SF2R x = SF2R z ->
  SFrep x z.
Proof.
  intros Hvx Hfx Hvz Hfz Hxz.
  destruct x as [sx|sx| |sx mx ex]; try discriminate.
  - destruct z as [sz|sz| |sz mz ez]; try discriminate.
    + exists sx. reflexivity.
    + assert (Hs := SF2R_finite_sign sz mz ez). rewrite <- Hxz in Hs.
      simpl in Hs. destruct sz; lra.
  - assert (H1 := binary_normalize_exact (cond_Zopp sx (Z.pos mx)) ex
                    (S754_finite sx mx ex) Hvx Hfx eq_refl).
    assert (H2 := binary_normalize_exact (cond_Zopp sx (Z.pos mx)) ex
                    z Hvz Hfz Hxz).
    simpl in H1. rewrite H1 in H2. exact H2.
Qed.

Lemma shl_align_value (m : positive) (e ez : Z) :
  ez <= e ->
  (IZR (Z.pos (fst (shl_align m e ez))) * powerRZ 2 ez
   = IZR (Z.pos m) * powerRZ 2 e)%R.
Proof.
  intros Hle. unfold shl_align.
  destruct (ez - e) as [|d|d] eqn:Ed; simpl fst.
  - replace ez with e by lia. reflexivity.
  - lia.
  - rewrite pos_iter_xO, mult_IZR, <- powerRZ_2_nonneg by lia.
    rewrite Rmult_assoc, <- powerRZ_add by (apply Rgt_not_eq; lra).
    f_equal. f_equal. lia.
Qed.

Lemma aligned_value (s : bool) (m : positive) (e ez : Z) :
  ez <= e ->
  (IZR (cond_Zopp s (Z.pos (fst (shl_align m e ez)))) * powerRZ 2 ez
   = SF2R (S754_finite s m e))%R.
Proof.
  intros Hle. simpl. rewrite !IZR_cond_Zopp.
  assert (H := shl_align_value m e ez Hle).
  destruct s; lra.
Qed.

Lemma finite_value_nonzero (s : bool) (m : positive) (e : Z) :
  SF2R (S754_finite s m e) <> 0%R.
Proof.
  assert (H := SF2R_finite_sign s m e). destruct s; lra.
Qed.

(** Float64 addition is exact when the sum is representable. *)
Lemma SF64add_exact (x y z : spec_float) :
  valid_binary x = true -> finite_or_zero x = true ->
  valid_binary y = true -> finite_or_zero y = true ->
  valid_binary z = true -> finite_or_zero z = true ->
  (SF2R z = SF2R x + SF2R y)%R ->
  SFrep (SF64add x y) z.
Proof.
  intros Hvx Hfx Hvy Hfy Hvz Hfz Hz.
  destruct x as [sx|sx| |sx mx ex]; try discriminate;
    destruct y as [sy|sy| |sy my ey]; try discriminate.
  - apply SFrep_of_value; try assumption.
    + destruct sx, sy; reflexivity.
    + destruct sx, sy; reflexivity.
    + rewrite Hz. destruct sx, sy; simpl; lra.
  - apply SFrep_of_value; try assumption.
    rewrite Hz. simpl. lra.
  - apply SFrep_of_value; try assumption.
    rewrite Hz. simpl. lra.
  - unfold SF64add, SFadd. cbv zeta.
    apply binary_normalize_exact; try assumption.
    rewrite plus_IZR, Rmult_plus_distr_r, !aligned_value, Hz by lia.
    reflexivity.
Qed.

(** Float64 subtraction is exact when the difference is representable. *)
Lemma SF64sub_exact (x y z : spec_float) :
  valid_binary x = true -> finite_or_zero x = true ->
  valid_binary y = true -> finite_or_zero y = true ->
  valid_binary z = true -> finite_or_zero z = true ->
  (SF2R z = SF2R x - SF2R y)%R ->
  SFrep (SF64sub x y) z.
Proof.
  intros Hvx Hfx Hvy Hfy Hvz Hfz Hz.
  destruct x as [sx|sx| |sx mx ex]; try discriminate;
    destruct y as [sy|sy| |sy my ey]; try discriminate.
  - apply SFrep_of_value; try assumption.
    + destruct sx, sy; reflexivity.
    + destruct sx, sy; reflexivity.
    + rewrite Hz. destruct sx, sy; simpl; lra.
  - apply SFrep_of_value; try assumption.
    rewrite Hz. simpl. rewrite !IZR_cond_Zopp. destruct sy; simpl; lra.
  - apply SFrep_of_value; try assumption.
    rewrite Hz. simpl. lra.
  - unfold SF64sub, SFsub. cbv zeta.
    apply binary_normalize_exact; try assumption.
    rewrite minus_IZR. unfold Rminus.
    rewrite Rmult_plus_distr_r, <- Ropp_mult_distr_l, !aligned_value, Hz
      by lia.
    reflexivity.
Qed.

Lemma is_finite_SF (x : float) :
  is_finite x = true -> finite_or_zero (Prim2SF x) = true.
Proof.
  unfold is_finite, is_nan, is_infinity.
  rewrite !FloatAxioms.eqb_spec, FloatAxioms.abs_spec.
  change (Prim2SF infinity) with (S754_infinity false).
  destruct (Prim2SF x) as [s|s| |s m e]; try reflexivity.
  - destruct s; discriminate.
  - discriminate.
Qed.

(** If the exact difference of two finite float64 numbers is a float64
    number, subtracting and adding back returns the first. *)
Theorem sub_add_exact (o n : float) :
  is_finite o = true ->
  is_finite n = true ->
  (exists d, is_finite d = true
             /\ float_value d = (float_value o - float_value n)%R) ->
  ((o - n) + n =? o)%float = true.
Proof.
  intros Ho Hn (d & Hd & Hval).
  apply is_finite_SF in Ho, Hn, Hd. unfold float_value in Hval.
  assert (H1 : SFrep (Prim2SF (o - n)) (Prim2SF d)).
  { rewrite FloatAxioms.sub_spec.
    apply SF64sub_exact; try assumption; apply Prim2SF_valid. }
  rewrite FloatAxioms.eqb_spec, FloatAxioms.add_spec. apply SFrep_eqb.
  apply SF64add_exact; try assumption; try apply Prim2SF_valid.
  - eapply SFrep_finite. exact H1.
  - rewrite (SFrep_value _ _ H1). lra.
Qed.

Lemma SFeqb_finite_eq (x : spec_float) (s : bool) (m : positive) (e : Z) :
  SFeqb x (S754_finite s m e) = true -> x = S754_finite s m e.
Proof.
  unfold SFeqb, SFcompare.
  destruct x as [sx|sx| |sx mx ex].
  - destruct s; discriminate.
  - destruct sx; discriminate.
  - discriminate.
  - rewrite Pos.compare_cont_spec. unfold Pos.switch_Eq.
    destruct (Z.compare_spec ex e) as [->|_|_];
      [ destruct (Pos.compare_spec mx m) as [->|_|_] | | ];
      destruct sx, s; try discriminate; reflexivity.
Qed.

(** [x + 1] is zero exactly when [x] is [-1]. *)
Lemma add_one_zero_iff (x : float) :
  (x + 1 =? 0)%float = true <-> (x =? -1)%float = true.
Proof.
  split.
  - rewrite !FloatAxioms.eqb_spec, FloatAxioms.add_spec.
    assert (Hv := Prim2SF_valid x).
    change (Prim2SF 0) with (S754_zero false).
    change (Prim2SF 1) with (S754_finite false 4503599627370496 (-52)).
    change (Prim2SF (-1)) with (S754_finite true 4503599627370496 (-52)).
    destruct (Prim2SF x) as [s|s| |s m e];
      try (intros H; destruct s; vm_compute in H; discriminate H);
      try (intros H; vm_compute in H; discriminate H).
    intros H. apply SFrep_eqb. apply SFrep_of_value; try reflexivity;
        try assumption.
      assert (He := valid_finite_emin _ _ _ Hv).
      revert H. unfold SF64add, SFadd. cbv zeta.
      set (ez := Z.min e (-52)).
      assert (Hx := aligned_value s m e ez ltac:(lia)).
      assert (H1 := aligned_value false 4503599627370496 (-52) ez ltac:(lia)).
      set (zx := cond_Zopp s (Z.pos (fst (shl_align m e ez)))) in *.
      set (z1 := cond_Zopp false
                   (Z.pos (fst (shl_align 4503599627370496 (-52) ez)))) in *.
      intros H.
      assert (Hz : zx + z1 = 0).
      { destruct (zx + z1) as [|p|p]; [reflexivity| |]; exfalso;
          simpl binary_normalize in H.
        - destruct (binary_round_nonzero false p ez) as [(m'&e'&E)|E];
            [unfold ez, SpecFloat.emin, prec, emax in *; lia|..];
            rewrite E in H; discriminate.
        - destruct (binary_round_nonzero true p ez) as [(m'&e'&E)|E];
            [unfold ez, SpecFloat.emin, prec, emax in *; lia|..];
            rewrite E in H; discriminate. }
      assert (Hr : (IZR (zx + z1) * powerRZ 2 ez = 0)%R)
        by (rewrite Hz; lra).
      rewrite plus_IZR, Rmult_plus_distr_r, Hx, H1 in Hr.
      cbn [SF2R cond_Zopp] in Hr |- *.
      change (Z.neg 4503599627370496) with (- Z.pos 4503599627370496).
      rewrite opp_IZR. lra.
  - rewrite (FloatAxioms.eqb_spec x).
    change (Prim2SF (-1)) with (S754_finite true 4503599627370496 (-52)).
    intros H. apply SFeqb_finite_eq in H.
    change (S754_finite true 4503599627370496 (-52)) with (Prim2SF (-1)) in H.
    apply Prim2SF_inj in H. subst x. reflexivity.
Qed.

(** *** Further facts: exact differences, NaN, division by one, signs *)

(** If [a] is exactly [o - n], then [(o - n) - a] is zero. *)
Lemma sub_sub_exact_zero (o n a : float) :
  is_finite o = true -> is_finite n = true -> is_finite a = true ->
  float_value a = (float_value o - float_value n)%R ->
  ((o - n) - a =? 0)%float = true.
Proof.
  intros Ho Hn Ha Hval.
  apply is_finite_SF in Ho, Hn, Ha. unfold float_value in Hval.
  assert (H1 : SFrep (Prim2SF (o - n)) (Prim2SF a)).
  { rewrite FloatAxioms.sub_spec.
    apply SF64sub_exact; try assumption; apply Prim2SF_valid. }
  rewrite FloatAxioms.eqb_spec, FloatAxioms.sub_spec.
  change (Prim2SF 0) with (S754_zero false).
  apply SFrep_eqb. apply SF64sub_exact; try assumption;
    try apply Prim2SF_valid; try reflexivity.
  - eapply SFrep_finite. exact H1.
  - rewrite (SFrep_value _ _ H1). simpl. lra.
Qed.



(** A zero plus one is one. *)
Lemma zero_add_one (x : float) : (x =? 0)%float = true -> (x + 1)%float = 1%float.
Proof.
  rewrite FloatAxioms.eqb_spec. change (Prim2SF 0) with (S754_zero false).
  intros H. apply Prim2SF_inj. rewrite FloatAxioms.add_spec.
  change (Prim2SF 1) with (S754_finite false 4503599627370496 (-52)).
  destruct (Prim2SF x) as [s|s| |s m e]; try discriminate.
  - reflexivity.
  - destruct s; discriminate.
  - destruct s; discriminate.
Qed.

Lemma fexp_mono (a b : Z) : a <= b -> fexp prec emax a <= fexp prec emax b.
Proof. unfold fexp. lia. Qed.

(** Dividing a float64 by one returns it. *)
Lemma SF64div_one (x : spec_float) :
  valid_binary x = true ->
  SF64div x (S754_finite false 4503599627370496 (-52)) = x.
Proof.
  intros Hv. destruct x as [s|s| |s m e]; try reflexivity.
  - destruct s; reflexivity.
  - destruct s; reflexivity.
  - simpl in Hv. destruct (bounded_inv m e Hv) as [Hc Hb].
    unfold SF64div, SFdiv, SFdiv_core_binary.
    rewrite xorb_false_r.
    change (Zdigits2 (Z.pos m)) with (Z.pos (digits2_pos m)).
    change (Zdigits2 (Z.pos 4503599627370496)) with 53.
    set (d := Z.pos (digits2_pos m)) in *.
    assert (Ht : fexp prec emax (d + e - (53 + -52)) <= e)
      by (rewrite <- Hc at 2; apply fexp_mono; lia).
    replace (Z.min (fexp prec emax (d + e - (53 + -52))) (e - -52))
      with (fexp prec emax (d + e - (53 + -52))) by lia.
    set (t := fexp prec emax (d + e - (53 + -52))) in *.
    destruct (e - -52 - t) as [|k|k] eqn:Ek; try lia.
    rewrite Z.shiftl_mul_pow2 by lia.
    assert (Hk : Z.pos k = (e - t) + 52) by lia.
    assert (H2 : 0 < 2 ^ (e - t)) by (apply Z.pow_pos_nonneg; lia).
    assert (Hq : Z.pos m * 2 ^ Z.pos k
                 = (Z.pos m * 2 ^ (e - t)) * 4503599627370496).
    { rewrite Hk, Z.pow_add_r by lia. change (2 ^ 52) with 4503599627370496.
      ring. }
    rewrite Hq.
    assert (Hdiv := Z.div_eucl_eq (Z.pos m * 2 ^ (e - t) * 4503599627370496)
                      4503599627370496 ltac:(lia)).
    assert (Hmod := Z.mod_pos_bound
                      (Z.pos m * 2 ^ (e - t) * 4503599627370496)
                      4503599627370496 ltac:(lia)).
    unfold Z.modulo in Hmod.
    destruct (Z.div_eucl (Z.pos m * 2 ^ (e - t) * 4503599627370496)
                4503599627370496) as [q r].
    assert (Hqr : q = Z.pos m * 2 ^ (e - t) /\ r = 0) by nia.
    destruct Hqr as [-> ->].
    change (new_location 4503599627370496 0) with loc_Exact.
    destruct (Z.pos m * 2 ^ (e - t)) as [|p|p] eqn:Ep; try lia.
    destruct (Z.eq_dec e t) as [<-|Hne].
    + rewrite Z.sub_diag in Ep. simpl in Ep.
      assert (p = m) by lia. subst p.
      apply binary_round_aux_canonical. exact Hv.
    + replace t with (e - (e - t)) at 1 by lia.
      apply binary_round_aux_shifted; [exact Hv|lia|symmetry; exact Ep].
Qed.

Lemma div_one (x : float) : (x / 1)%float = x.
Proof.
  apply Prim2SF_inj. rewrite FloatAxioms.div_spec.
  apply SF64div_one. apply Prim2SF_valid.
Qed.

Lemma shr_fexp_nonneg (m e : Z) (l : location) :
  0 <= m -> 0 <= shr_m (fst (shr_fexp prec emax m e l)).
Proof.
  intros Hm. unfold shr_fexp, shr.
  assert (Hrec : shr_m (shr_record_of_loc m l) = m)
    by (destruct l as [|[]]; reflexivity).
  destruct (fexp prec emax (Zdigits2 m + e) - e) as [|n|n]; simpl fst;
    try (rewrite Hrec; exact Hm).
  rewrite iter_pos_nat, shr_iter_m, Hrec by (rewrite Hrec; exact Hm).
  apply Z.div_pos; [exact Hm|]. apply Z.pow_pos_nonneg; lia.
Qed.

(** Rounding a non-negative mantissa gives a zero, a finite number or an
    infinity of the given sign, never a NaN. *)
Lemma binary_round_aux_sign (s : bool) (m e : Z) (l : location) :
  0 <= m ->
  match binary_round_aux prec emax s m e l with
  | S754_zero s' | S754_finite s' _ _ | S754_infinity s' => s' = s
  | S754_nan => False
  end.
Proof.
  intros Hm. unfold binary_round_aux.
  assert (H1 := shr_fexp_nonneg m e l Hm).
  destruct (shr_fexp prec emax m e l) as [mrs' e']. simpl in H1.
  assert (H2 : 0 <= round_nearest_even (shr_m mrs') (loc_of_shr_record mrs')).
  { destruct (loc_of_shr_record mrs') as [|[]]; simpl; try lia.
    destruct (Z.even (shr_m mrs')); lia. }
  assert (H3 := shr_fexp_nonneg _ e' loc_Exact H2).
  destruct (shr_fexp prec emax
              (round_nearest_even (shr_m mrs') (loc_of_shr_record mrs'))
              e' loc_Exact) as [mrs'' e''].
  simpl in H3. destruct (shr_m mrs'') as [|p|p]; try lia; try reflexivity.
  destruct (e'' <=? emax - prec); reflexivity.
Qed.

(** The sum of a non-negative float64 and one is positive. *)
Lemma add_one_positive (x : float) :
  (0 <=? x)%float = true ->
  match Prim2SF (x + 1) with
  | S754_finite false _ _ | S754_infinity false => True
  | _ => False
  end.
Proof.
  rewrite FloatAxioms.leb_spec, FloatAxioms.add_spec.
  assert (Hv := Prim2SF_valid x).
  change (Prim2SF 0) with (S754_zero false).
  change (Prim2SF 1) with (S754_finite false 4503599627370496 (-52)).
  destruct (Prim2SF x) as [s|s| |[] m e]; try discriminate.
  - intros _. exact I.
  - destruct s; [discriminate|]. intros _. exact I.
  - intros _. apply valid_finite_emin in Hv.
    unfold SF64add, SFadd. cbv zeta.
    set (ez := Z.min e (-52)).
    change (cond_Zopp false ?z) with z.
    change (Z.pos ?a + Z.pos ?b) with (Z.pos (a + b)).
    unfold binary_normalize.
    destruct (binary_round_nonzero false
                (fst (shl_align m e ez)
                 + fst (shl_align 4503599627370496 (-52) ez)) ez)
      as [(m' & e' & ->)| ->].
    + unfold SpecFloat.emin, prec, emax in *. lia.
    + exact I.
    + exact I.
Qed.

(** A finite non-negative float64 divided by a non-negative one plus one is
    a non-negative number: neither negative nor NaN. *)
Lemma ratio_nonneg (a b : float) :
  is_finite a = true ->
  (0 <=? a)%float = true ->
  (0 <=? b)%float = true ->
  (0 <=? a / (b + 1))%float = true.
Proof.
  intros Hfa Ha Hb.
  apply is_finite_SF in Hfa. apply add_one_positive in Hb.
  rewrite FloatAxioms.leb_spec in Ha |- *. rewrite FloatAxioms.div_spec.
  change (Prim2SF 0) with (S754_zero false) in *.
  destruct (Prim2SF (b + 1)) as [sy|[]| |[] my ey]; try contradiction;
    destruct (Prim2SF a) as [sx|sx| |[] mx ex]; try discriminate;
    try reflexivity.
  unfold SF64div, SFdiv.
  assert (Hq : 0 <= fst (fst (SFdiv_core_binary prec emax (Z.pos mx) ex
                                (Z.pos my) ey))).
  { unfold SFdiv_core_binary.
    set (m' := match _ - _ - _ with
               | 0 => Z.pos mx | Z.pos _ => _ | Z.neg _ => 0 end).
    assert (Hm' : 0 <= m').
    { unfold m'. destruct (_ - _ - _) eqn:E; try lia.
      rewrite Z.shiftl_mul_pow2 by lia.
      apply Z.mul_nonneg_nonneg; [lia|]. apply Z.pow_nonneg. lia. }
    assert (Hd := Z.div_pos m' (Z.pos my) Hm' ltac:(lia)).
    unfold Z.div in Hd.
    destruct (Z.div_eucl m' (Z.pos my)) as [q r]. exact Hd. }
  destruct (SFdiv_core_binary prec emax (Z.pos mx) ex (Z.pos my) ey)
    as [[mz ez] lz].
  simpl in Hq.
  assert (H := binary_round_aux_sign (xorb false false) mz ez lz Hq).
  destruct (binary_round_aux prec emax (xorb false false) mz ez lz)
    as [s|s| |s m e]; try contradiction; subst s; reflexivity.
Qed.

Lemma is_nan_false_SF (x : float) : is_nan x = false -> Prim2SF x <> S754_nan.
Proof.
  unfold is_nan. rewrite FloatAxioms.eqb_spec. intros H E.
  rewrite E in H. discriminate.
Qed.

Lemma SFeqb_refl (x : spec_float) : x <> S754_nan -> SFeqb x x = true.
Proof.
  destruct x as [s|s| |s m e]; try (intros H; contradiction H; reflexivity);
    intros _; unfold SFeqb, SFcompare.
  - reflexivity.
  - destruct s; reflexivity.
  - rewrite Z.compare_refl, Pos.compare_cont_refl. destruct s; reflexivity.
Qed.

(** Subtracting a zero changes nothing (up to the sign of a zero). *)
Lemma sub_zero (o n : float) :
  (n =? 0)%float = true -> is_nan o = false -> (o - n =? o)%float = true.
Proof.
  intros Hn Ho. apply is_nan_false_SF in Ho.
  rewrite FloatAxioms.eqb_spec in Hn |- *. rewrite FloatAxioms.sub_spec.
  change (Prim2SF 0) with (S754_zero false) in Hn.
  destruct (Prim2SF n) as [sn|sn| |sn mn en]; try discriminate;
    try (destruct sn; discriminate).
  destruct (Prim2SF o) as [so|so| |so mo eo].
  - destruct so, sn; reflexivity.
  - apply SFeqb_refl. discriminate.
  - exfalso. apply Ho. reflexivity.
  - apply SFeqb_refl. discriminate.
Qed.

(** With both balances zero, the balance error is minus the amount. *)
Lemma zero_sub_zero_sub (x y a : float) :
  (x =? 0)%float = true -> (y =? 0)%float = true -> is_nan a = false ->
  ((y - x) - a =? - a)%float = true.
Proof.
  intros Hx Hy Ha. apply is_nan_false_SF in Ha.
  rewrite FloatAxioms.eqb_spec in Hx, Hy |- *.
  rewrite !FloatAxioms.sub_spec, FloatAxioms.opp_spec.
  change (Prim2SF 0) with (S754_zero false) in Hx, Hy.
  destruct (Prim2SF x) as [sx|sx| |sx mx ex]; try discriminate;
    try (destruct sx; discriminate).
  destruct (Prim2SF y) as [sy|sy| |sy my ey]; try discriminate;
    try (destruct sy; discriminate).
  destruct (Prim2SF a) as [sa|sa| |sa ma ea].
  - destruct sx, sy, sa; reflexivity.
  - destruct sx, sy, sa; reflexivity.
  - exfalso. apply Ha. reflexivity.
  - assert (E : SF64sub (SF64sub (S754_zero sy) (S754_zero sx))
                  (S754_finite sa ma ea)
                = S754_finite (negb sa) ma ea)
      by (destruct sx, sy; reflexivity).
    rewrite E. apply SFeqb_refl. discriminate.
Qed.

Local Close Scope Z_scope.

(** ** Columns of a frame *)

Lemma frame_get_set (k k' : string) (s : series) (f : frame) :
  frame_get k (frame_set k' s f)
  = if decide (k' = k) then Some s else frame_get k f.
Proof.
  induction f as [|[k0 s0] f IH]; simpl.
  - reflexivity.
  - destruct (decide (k0 = k')) as [->|Hne]; simpl.
    + destruct (decide (k' = k)); reflexivity.
    + destruct (decide (k0 = k)) as [->|Hne'].
      * rewrite decide_False by congruence. reflexivity.
      * exact IH.
Qed.

Lemma frame_get_set_eq (k : string) (s : series) (f : frame) :
  frame_get k (frame_set k s f) = Some s.
Proof. rewrite frame_get_set, decide_True; reflexivity. Qed.

Lemma frame_get_set_ne (k k' : string) (s : series) (f : frame) :
  k' <> k -> frame_get k (frame_set k' s f) = frame_get k f.
Proof. intros H. rewrite frame_get_set, decide_False; auto. Qed.

(** Assigning a column that exists keeps the column labels; assigning a new
    one appends its label. *)
Lemma frame_columns_set (k : string) (s : series) (f : frame) :
  frame_columns (frame_set k s f)
  = match frame_get k f with
    | Some _ => frame_columns f
    | None => (frame_columns f ++ [k])%list
    end.
Proof.
  unfold frame_columns.
  induction f as [|[k0 s0] f IH]; simpl.
  - reflexivity.
  - destruct (decide (k0 = k)) as [->|Hne].
    + reflexivity.
    + change (k0 :: (frame_set k s f).*1
              = match frame_get k f with
                | Some _ => k0 :: f.*1
                | None => (k0 :: f.*1 ++ [k])%list
                end).
      rewrite IH. destruct (frame_get k f); reflexivity.
Qed.

(** ** Steps of the program on the object it works on *)

Lemma bind_eq {A B} (m : M A) (k : A -> M B) (w : world) :
  (m ≫= k) w
  = match m w with
    | (Ok a, w') => k a w'
    | (Raise e, w') => (Raise e, w')
    | (Unmodelled, w') => (Unmodelled, w')
    end.
Proof. reflexivity. Qed.

Lemma getitem_insert (l : loc) (k : string) (f : frame)
    (h : gmap loc frame) (c : list call) :
  getitem l k (World (<[l := f]> h) c)
  = match frame_get k f with
    | Some s => (Ok s, World (<[l := f]> h) c)
    | None => (Raise (KeyError k), World (<[l := f]> h) c)
    end.
Proof. unfold getitem. simpl. rewrite lookup_insert_eq. reflexivity. Qed.

Lemma setitem_insert (l : loc) (k : string) (s : series) (f : frame)
    (h : gmap loc frame) (c : list call) :
  setitem l k s (World (<[l := f]> h) c)
  = (Ok tt, World (<[l := frame_set k s f]> h) c).
Proof.
  unfold setitem. simpl. rewrite lookup_insert_eq, insert_insert_eq.
  reflexivity.
Qed.

Lemma copy_eq (df : loc) (f : frame) (w : world) :
  heap w !! df = Some f ->
  copy df w
  = (Ok (fresh (dom (heap w))),
     World (<[fresh (dom (heap w)) := f]> (heap w)) (calls w)).
Proof. intros H. unfold copy. rewrite H. reflexivity. Qed.

Lemma lift_eq {A} (o : outcome A) (w : world) : lift o w = (o, w).
Proof. reflexivity. Qed.

Lemma ret_eq {A} (a : A) (w : world) : (mret a : M A) w = (Ok a, w).
Proof. reflexivity. Qed.

(** One statement of the program, run on the object at [l]. *)
Ltac step :=
  rewrite bind_eq;
  first [ rewrite getitem_insert | rewrite setitem_insert | rewrite lift_eq ];
  repeat first
    [ rewrite frame_get_set_eq
    | rewrite frame_get_set_ne by discriminate ].

(** On a frame whose five numeric columns are float64 the function returns a
    new object holding [enriched_frame]; nothing else changes. *)
Lemma create_advanced_features_float64 (w : world) (df : loc) (f : frame)
    (a oo no od nd : list float) :
  heap w !! df = Some f ->
  frame_get "amount" f = Some (SFloat64 a) ->
  frame_get "oldbalanceOrg" f = Some (SFloat64 oo) ->
  frame_get "newbalanceOrig" f = Some (SFloat64 no) ->
  frame_get "oldbalanceDest" f = Some (SFloat64 od) ->
  frame_get "newbalanceDest" f = Some (SFloat64 nd) ->
  create_advanced_features df w
  = (Ok (fresh (dom (heap w))),
     World (<[fresh (dom (heap w)) := enriched_frame f a oo no od nd]> (heap w))
           (calls w)).
Proof.
  intros Hdf Ha Hoo Hno Hod Hnd.
  unfold create_advanced_features.
  rewrite bind_eq, (copy_eq _ _ _ Hdf).
  cbv beta iota.
  repeat (step; rewrite ?Ha, ?Hoo, ?Hno, ?Hod, ?Hnd;
          cbn [series_sub series_div series_add_scalar series_eq_scalar
               series_gt_scalar np_log1p]; cbv beta iota).
  rewrite ret_eq. reflexivity.
Qed.

(** ** Cells *)

Lemma float_cell_get (f : frame) (k : string) (i : nat) (l : list float) :
  frame_get k f = Some (SFloat64 l) -> float_cell f k i = l !! i.
Proof.
  intros H. unfold float_cell, cell. rewrite H. simpl.
  destruct (l !! i); reflexivity.
Qed.

Lemma int_cell_get (f : frame) (k : string) (i : nat) (l : list Z) :
  frame_get k f = Some (SInt64 l) -> int_cell f k i = l !! i.
Proof.
  intros H. unfold int_cell, cell. rewrite H. simpl.
  destruct (l !! i); reflexivity.
Qed.

Lemma float_cell_inv (f : frame) (k : string) (i : nat) (x : float) :
  float_cell f k i = Some x ->
  exists l, frame_get k f = Some (SFloat64 l) /\ l !! i = Some x.
Proof.
  unfold float_cell, cell. intros H.
  destruct (frame_get k f) as [[l|l|l]|]; simpl in H;
    try (destruct (l !! i); discriminate); try discriminate.
  exists l. split; [reflexivity|].
  destruct (l !! i); simpl in H; congruence.
Qed.

Lemma raw_row_inv (f : frame) (i : nat) (r : raw_transaction) :
  raw_row f i = Some r ->
  exists a oo no od nd,
    frame_get "amount" f = Some (SFloat64 a)
    /\ frame_get "oldbalanceOrg" f = Some (SFloat64 oo)
    /\ frame_get "newbalanceOrig" f = Some (SFloat64 no)
    /\ frame_get "oldbalanceDest" f = Some (SFloat64 od)
    /\ frame_get "newbalanceDest" f = Some (SFloat64 nd)
    /\ a !! i = Some (amount r)
    /\ oo !! i = Some (oldbalanceOrg r)
    /\ no !! i = Some (newbalanceOrig r)
    /\ od !! i = Some (oldbalanceDest r)
    /\ nd !! i = Some (newbalanceDest r).
Proof.
  unfold raw_row. intros H.
  destruct (str_cell f "type" i) as [ty|]; [|discriminate].
  destruct (float_cell f "amount" i) as [xa|] eqn:Ea; [|discriminate].
  destruct (float_cell f "oldbalanceOrg" i) as [xoo|] eqn:Eoo; [|discriminate].
  destruct (float_cell f "newbalanceOrig" i) as [xno|] eqn:Eno; [|discriminate].
  destruct (float_cell f "oldbalanceDest" i) as [xod|] eqn:Eod; [|discriminate].
  destruct (float_cell f "newbalanceDest" i) as [xnd|] eqn:End; [|discriminate].
  simpl in H. injection H as <-. simpl.
  apply float_cell_inv in Ea as (a & ? & ?), Eoo as (oo & ? & ?),
    Eno as (no & ? & ?), Eod as (od & ? & ?), End as (nd & ? & ?).
  exists a, oo, no, od, nd. repeat split; assumption.
Qed.

Ltac cell_get :=
  first [ erewrite float_cell_get | erewrite int_cell_get ];
  [ | repeat first
        [ rewrite frame_get_set_eq
        | rewrite frame_get_set_ne by discriminate ];
      reflexivity ].

(** The derived features of row [i] of [enriched_frame] are the formulas
    applied to row [i] of the input. *)
Lemma derived_row_enriched (f : frame) (a oo no od nd : list float)
    (i : nat) (r : raw_transaction) :
  a !! i = Some (amount r) ->
  oo !! i = Some (oldbalanceOrg r) ->
  no !! i = Some (newbalanceOrig r) ->
  od !! i = Some (oldbalanceDest r) ->
  nd !! i = Some (newbalanceDest r) ->
  derived_row (enriched_frame f a oo no od nd) i = Some (spec_formulas r).
Proof.
  intros Ha Hoo Hno Hod Hnd.
  unfold derived_row, enriched_frame.
  repeat cell_get.
  rewrite !lookup_zip_with, !list_lookup_fmap.
  rewrite Ha, Hoo, Hno, Hod, Hnd. reflexivity.
Qed.

Lemma deref_insert (l : loc) (f : frame) (h : gmap loc frame) (c : list call) :
  deref (Ok l, World (<[l := f]> h) c) = Ok f.
Proof. unfold deref. simpl. rewrite lookup_insert_eq. reflexivity. Qed.

(** Row by row, the object that [create_advanced_features] returns holds
    the formulas applied to the raw fields of the object it was given. *)
Lemma create_advanced_features_row (w : world) (df : loc) (f : frame)
    (i : nat) (r : raw_transaction) :
  heap w !! df = Some f ->
  raw_row f i = Some r ->
  exists f',
    deref (create_advanced_features df w) = Ok f'
    /\ derived_row f' i = Some (spec_formulas r).
Proof.
  intros Hdf Hrow.
  destruct (raw_row_inv _ _ _ Hrow)
    as (a & oo & no & od & nd & Ha & Hoo & Hno & Hod & Hnd & Ia & Ioo & Ino
        & Iod & Ind).
  exists (enriched_frame f a oo no od nd). split.
  - rewrite (create_advanced_features_float64 w df f a oo no od nd)
      by assumption.
    apply deref_insert.
  - apply derived_row_enriched; assumption.
Qed.

(** ** The formulas (C1, C2, C4, C5) *)

(** C1: for every input record with the six raw fields, i.e. every row [i]
    of a frame that reads as a raw transaction [r], the derivation succeeds
    and the twelve derived fields of that row are exactly the formulas of the
    specification applied to [r]: the two balance differences, the two ratios
    with [+ 1] in the denominator, the two balance errors, the three binary
    indicators and the three [log1p] features. *)
Theorem derive_computes_spec_formulas (w : world) (df : loc) (f : frame)
    (i : nat) (r : raw_transaction) :
  heap w !! df = Some f ->
  raw_row f i = Some r ->
  exists f',
    deref (create_advanced_features df w) = Ok f'
    /\ derived_row f' i
       = Some
           {| balance_diff_orig := oldbalanceOrg r - newbalanceOrig r;
              balance_diff_dest := newbalanceDest r - oldbalanceDest r;
              amount_to_oldbalance_orig := amount r / (oldbalanceOrg r + 1);
              amount_to_oldbalance_dest := amount r / (oldbalanceDest r + 1);
              error_balance_orig :=
                (oldbalanceOrg r - newbalanceOrig r) - amount r;
              error_balance_dest :=
                (newbalanceDest r - oldbalanceDest r) - amount r;
              is_zero_balance_orig :=
                if (newbalanceOrig r =? 0)%float then 1 else 0;
              is_zero_balance_dest :=
                if (oldbalanceDest r =? 0)%float then 1 else 0;
              large_transaction :=
                if (200000 <? amount r)%float then 1 else 0;
              log_amount := log1p (amount r);
              log_oldbalance_orig := log1p (oldbalanceOrg r);
              log_oldbalance_dest := log1p (oldbalanceDest r) |}.
Proof.
  intros Hdf Hrow.
  destruct (raw_row_inv _ _ _ Hrow)
    as (a & oo & no & od & nd & Ha & Hoo & Hno & Hod & Hnd & Ia & Ioo & Ino
        & Iod & Ind).
  exists (enriched_frame f a oo no od nd). split.
  - rewrite (create_advanced_features_float64 w df f a oo no od nd)
      by assumption.
    apply deref_insert.
  - apply (derived_row_enriched f a oo no od nd i r); assumption.
Qed.

(** C2: the worked example.  The handler's one-row frame for
    CASH_OUT, amount 1000, origin balance 10000 -> 9000, destination balance
    0 -> 0 is derived to balance_diff_orig = 1000, error_balance_orig = 0,
    is_zero_balance_orig = 0, is_zero_balance_dest = 1, large_transaction = 0
    and amount_to_oldbalance_orig = 1000/10001 (the float64 quotient,
    0.0999900009999). *)
Theorem example_cash_out :
  exists f' d,
    deref ((DataFrame (input_frame example_raw) ≫= create_advanced_features)
             initial_world) = Ok f'
    /\ derived_row f' 0 = Some d
    /\ balance_diff_orig d = 1000%float
    /\ error_balance_orig d = 0%float
    /\ is_zero_balance_orig d = 0%Z
    /\ is_zero_balance_dest d = 1%Z
    /\ large_transaction d = 0%Z
    /\ amount_to_oldbalance_orig d = (1000 / 10001)%float
    /\ amount_to_oldbalance_orig d = 0x1.998f1d838b953p-4%float.
Proof.
  rewrite bind_eq. unfold DataFrame at 1. cbv beta iota zeta.
  destruct (create_advanced_features_row
              (World (<[fresh (dom (heap initial_world))
                        := input_frame example_raw]> (heap initial_world))
                     (calls initial_world))
              (fresh (dom (heap initial_world)))
              (input_frame example_raw) 0 example_raw)
    as (f' & Hrun & Hrow).
  - simpl. apply lookup_insert_eq.
  - reflexivity.
  - exists f', (spec_formulas example_raw).
    repeat split; try assumption; reflexivity.
Qed.

(** C4: [large_transaction] is 1 exactly when amount > 200000 (float64
    comparison) and 0 otherwise; at amount = 200000 it is 0. *)
Theorem large_transaction_iff (w : world) (df : loc) (f : frame)
    (i : nat) (r : raw_transaction) :
  heap w !! df = Some f ->
  raw_row f i = Some r ->
  exists f' d,
    deref (create_advanced_features df w) = Ok f'
    /\ derived_row f' i = Some d
    /\ (large_transaction d = 1%Z <-> (200000 <? amount r)%float = true)
    /\ (large_transaction d = 0%Z <-> (200000 <? amount r)%float = false)
    /\ (amount r = 200000%float -> large_transaction d = 0%Z).
Proof.
  intros Hdf Hrow.
  destruct (create_advanced_features_row w df f i r Hdf Hrow) as (f' & H1 & H2).
  exists f', (spec_formulas r). split; [assumption|]. split; [assumption|].
  simpl. repeat split.
  - destruct (200000 <? amount r)%float; [reflexivity|discriminate].
  - intros ->. reflexivity.
  - destruct (200000 <? amount r)%float; [discriminate|reflexivity].
  - intros ->. reflexivity.
  - intros ->. reflexivity.
Qed.

(** C5: [is_zero_balance_orig] is 1 exactly when newbalanceOrig == 0 and
    [is_zero_balance_dest] is 1 exactly when oldbalanceDest == 0 (float64
    equality, under which -0.0 == 0); otherwise each is 0. *)
Theorem zero_balance_indicators (w : world) (df : loc) (f : frame)
    (i : nat) (r : raw_transaction) :
  heap w !! df = Some f ->
  raw_row f i = Some r ->
  exists f' d,
    deref (create_advanced_features df w) = Ok f'
    /\ derived_row f' i = Some d
    /\ (is_zero_balance_orig d = 1%Z <-> (newbalanceOrig r =? 0)%float = true)
    /\ (is_zero_balance_orig d = 0%Z <-> (newbalanceOrig r =? 0)%float = false)
    /\ (is_zero_balance_dest d = 1%Z <-> (oldbalanceDest r =? 0)%float = true)
    /\ (is_zero_balance_dest d = 0%Z <-> (oldbalanceDest r =? 0)%float = false).
Proof.
  intros Hdf Hrow.
  destruct (create_advanced_features_row w df f i r Hdf Hrow) as (f' & H1 & H2).
  exists f', (spec_formulas r). split; [assumption|]. split; [assumption|].
  simpl.
  destruct (newbalanceOrig r =? 0)%float, (oldbalanceDest r =? 0)%float;
    repeat split; intros; congruence.
Qed.

(** ** Runs on arbitrary frames *)

(** The run on the copy: statement by statement, with a case analysis on
    every column the program reads. *)
Ltac run :=
  repeat
    (first [ rewrite !bind_eq;
             first [ rewrite !getitem_insert
                   | rewrite !setitem_insert
                   | rewrite !lift_eq ]
           | rewrite !ret_eq ];
     repeat first
       [ rewrite frame_get_set_eq
       | rewrite frame_get_set_ne by discriminate ];
     repeat match goal with
       | H : frame_get ?k ?f = _ |- context [frame_get ?k ?f] => rewrite H
       end;
     try match goal with
       | |- context [match frame_get ?k ?f with _ => _ end] =>
           destruct (frame_get k f) as [[?|?|?]|] eqn:?
       end;
     cbn [series_sub series_div series_add_scalar series_eq_scalar
          series_gt_scalar np_log1p];
     cbv beta iota;
     try solve [eauto | reflexivity]).

(** Whatever the frame, a run creates exactly one object, the copy, and
    touches nothing else: every object of the store it started from is left
    as it was, and the classifier is not called. *)
Lemma create_advanced_features_shape (w : world) (df : loc) (f : frame) :
  heap w !! df = Some f ->
  exists o g,
    create_advanced_features df w
    = (o, World (<[fresh (dom (heap w)) := g]> (heap w)) (calls w)).
Proof.
  intros Hdf. unfold create_advanced_features.
  rewrite bind_eq, (copy_eq _ _ _ Hdf). cbv beta iota.
  run.
Qed.

(** The outcome depends on the columns of the frame alone: not on where the
    object lives, nor on the other objects, nor on the calls made so far. *)
Lemma create_advanced_features_relocate (w1 w2 : world) (df1 df2 : loc)
    (f : frame) :
  heap w1 !! df1 = Some f ->
  heap w2 !! df2 = Some f ->
  deref (create_advanced_features df1 w1)
  = deref (create_advanced_features df2 w2).
Proof.
  intros H1 H2. unfold create_advanced_features.
  rewrite !bind_eq, (copy_eq _ _ _ H1), (copy_eq _ _ _ H2). cbv beta iota.
  run; rewrite !deref_insert; reflexivity.
Qed.

Lemma fresh_not_allocated (w : world) (df : loc) (f : frame) :
  heap w !! df = Some f -> fresh (dom (heap w)) <> df.
Proof.
  intros Hdf Heq.
  apply (is_fresh (dom (heap w))). rewrite Heq.
  apply elem_of_dom. eauto.
Qed.

Lemma has_raw_schema_inv (f : frame) :
  has_raw_schema f = true ->
  exists a oo no od nd,
    frame_get "amount" f = Some (SFloat64 a)
    /\ frame_get "oldbalanceOrg" f = Some (SFloat64 oo)
    /\ frame_get "newbalanceOrig" f = Some (SFloat64 no)
    /\ frame_get "oldbalanceDest" f = Some (SFloat64 od)
    /\ frame_get "newbalanceDest" f = Some (SFloat64 nd).
Proof.
  unfold has_raw_schema. intros H.
  repeat (apply andb_prop in H as [H ?]).
  destruct (frame_get "amount" f) as [[|a|]|]; try discriminate.
  destruct (frame_get "oldbalanceOrg" f) as [[|oo|]|]; try discriminate.
  destruct (frame_get "newbalanceOrig" f) as [[|no|]|]; try discriminate.
  destruct (frame_get "oldbalanceDest" f) as [[|od|]|]; try discriminate.
  destruct (frame_get "newbalanceDest" f) as [[|nd|]|]; try discriminate.
  exists a, oo, no, od, nd. repeat split; reflexivity.
Qed.

(** The derivation assigns the twelve derived columns and no other. *)
Lemma enriched_frame_other (f : frame) (a oo no od nd : list float)
    (k : string) :
  k ∉ derived_columns ->
  frame_get k (enriched_frame f a oo no od nd) = frame_get k f.
Proof.
  intros Hk. unfold enriched_frame. cbv zeta.
  repeat (rewrite frame_get_set_ne;
          [ | intros <-; apply Hk; by_eval ]).
  reflexivity.
Qed.

Lemma enriched_frame_columns (f : frame) (a oo no od nd : list float) :
  Forall (fun k => frame_get k f = None) derived_columns ->
  frame_columns (enriched_frame f a oo no od nd)
  = (frame_columns f ++ derived_columns)%list.
Proof.
  intros H. unfold derived_columns in H.
  repeat match goal with
    | H : Forall _ (_ :: _) |- _ => apply Forall_cons_1 in H as [? H]
    end.
  unfold enriched_frame. cbv zeta.
  repeat (rewrite frame_columns_set;
          repeat (rewrite frame_get_set_ne by discriminate)).
  repeat match goal with
    | H : frame_get _ f = None |- _ => rewrite H; clear H
    end.
  unfold derived_columns. rewrite <- !(assoc_L (++)%list). reflexivity.
Qed.

Lemma raw_row_ext (f g : frame) (i : nat) :
  (forall k, k ∈ raw_columns -> frame_get k g = frame_get k f) ->
  raw_row g i = raw_row f i.
Proof.
  intros H. unfold raw_row, str_cell, float_cell, cell.
  rewrite !H by by_eval. reflexivity.
Qed.

(** ** The type dictionary (C7, C3) *)

Lemma dic_type_lookup (k v : string) :
  dic_type !! k = Some v
  <-> (k = "PAIEMENT" /\ v = "PAYMENT")
      \/ (k = "TRANSFERT" /\ v = "TRANSFER")
      \/ (k = "RETRAIT" /\ v = "CASH_OUT")
      \/ (k = "DEPOT" /\ v = "CASH_IN").
Proof.
  unfold dic_type. rewrite <- elem_of_list_to_map.
  - rewrite !elem_of_cons, elem_of_nil. split.
    + intros [H|[H|[H|[H|[]]]]]; injection H as -> ->; tauto.
    + intros [[-> ->]|[[-> ->]|[[-> ->]|[-> ->]]]]; tauto.
  - by_eval.
Qed.

Lemma dic_type_unknown (k : string) :
  k ∉ type_labels -> dic_type !! k = None.
Proof.
  intros Hk. destruct (dic_type !! k) as [v|] eqn:E; [|reflexivity].
  exfalso. apply Hk. apply dic_type_lookup in E.
  destruct E as [[-> _]|[[-> _]|[[-> _]|[-> _]]]]; by_eval.
Qed.

(** C7: [dic_type] is a fixed one-to-one lookup from the four labels of the
    form onto the four canonical codes: its keys are exactly the four labels,
    every value is a canonical code, no two keys share a value and every
    canonical code is the value of a key. *)
Theorem dic_type_bijective :
  (forall k, is_Some (dic_type !! k) <-> k ∈ type_labels)
  /\ size dic_type = 4
  /\ (forall k v, dic_type !! k = Some v -> v ∈ canonical_codes)
  /\ (forall k1 k2 v,
        dic_type !! k1 = Some v -> dic_type !! k2 = Some v -> k1 = k2)
  /\ (forall c, c ∈ canonical_codes -> exists k, dic_type !! k = Some c)
  /\ dic_type !! "PAIEMENT" = Some "PAYMENT"
  /\ dic_type !! "TRANSFERT" = Some "TRANSFER"
  /\ dic_type !! "RETRAIT" = Some "CASH_OUT"
  /\ dic_type !! "DEPOT" = Some "CASH_IN".
Proof.
  split; [|split; [|split; [|split; [|split]]]].
  - intros k. split.
    + intros [v Hv]. apply dic_type_lookup in Hv.
      destruct Hv as [[-> _]|[[-> _]|[[-> _]|[-> _]]]]; by_eval.
    + intros Hk. destruct (dic_type !! k) eqn:E; [eauto|].
      unfold type_labels in Hk.
      rewrite !elem_of_cons, elem_of_nil in Hk.
      destruct Hk as [->|[->|[->|[->|[]]]]]; discriminate.
  - reflexivity.
  - intros k v Hv. apply dic_type_lookup in Hv.
    destruct Hv as [[_ ->]|[[_ ->]|[[_ ->]|[_ ->]]]]; by_eval.
  - intros k1 k2 v H1 H2.
    apply dic_type_lookup in H1, H2.
    destruct H1 as [[-> ->]|[[-> ->]|[[-> ->]|[-> ->]]]];
      destruct H2 as [[-> ?]|[[-> ?]|[[-> ?]|[-> ?]]]];
      first [reflexivity | discriminate].
  - intros c Hc. unfold canonical_codes in Hc.
    rewrite !elem_of_cons, elem_of_nil in Hc.
    destruct Hc as [->|[->|[->|[->|[]]]]];
      [ exists "PAIEMENT" | exists "TRANSFERT" | exists "RETRAIT"
      | exists "DEPOT" ]; reflexivity.
  - repeat split; reflexivity.
Qed.

(** With one of the four labels the handler goes on: it derives the one-row
    frame of the form's values and passes the result to the classifier, whose
    first call is recorded after the calls made before. *)
Lemma analyse_known_type (transaction_type code : string)
    (amount oldbalanceOrg newbalanceOrig oldbalanceDest newbalanceDest : float)
    (w : world) :
  dic_type !! transaction_type = Some code ->
  exists f' rest,
    calls (snd (analyse transaction_type amount oldbalanceOrg newbalanceOrig
                        oldbalanceDest newbalanceDest w))
    = (calls w ++ CallPredict f' :: rest)%list
    /\ derived_row f' 0
       = Some (spec_formulas
                 (RawTransaction code amount oldbalanceOrg newbalanceOrig
                                 oldbalanceDest newbalanceDest)).
Proof.
  intros Hk. unfold analyse.
  set (r := RawTransaction code amount oldbalanceOrg newbalanceOrig
                           oldbalanceDest newbalanceDest).
  rewrite bind_eq. unfold dict_getitem at 1. rewrite Hk. cbv beta iota.
  rewrite bind_eq. unfold DataFrame at 1. cbv beta iota zeta.
  set (w1 := World (<[fresh (dom (heap w)) := input_frame r]> (heap w))
                   (calls w)).
  rewrite bind_eq.
  rewrite (create_advanced_features_float64 w1 (fresh (dom (heap w)))
             (input_frame r) [amount] [oldbalanceOrg] [newbalanceOrig]
             [oldbalanceDest] [newbalanceDest]);
    [ | apply lookup_insert_eq | reflexivity ..].
  cbv beta iota.
  set (f' := enriched_frame (input_frame r) [amount] [oldbalanceOrg]
               [newbalanceOrig] [oldbalanceDest] [newbalanceDest]).
  assert (Hrow : derived_row f' 0 = Some (spec_formulas r))
    by (apply derived_row_enriched; reflexivity).
  rewrite bind_eq. unfold predict at 1. cbn [heap calls].
  rewrite lookup_insert_eq.
  destruct (model_predict f') as [p| |]; cbv beta iota;
    [ | exists f', []; split; [reflexivity|exact Hrow] .. ].
  rewrite bind_eq. unfold array_getitem at 1.
  destruct (p !! 0%nat) as [prediction|]; cbv beta iota;
    [ | exists f', []; split; [reflexivity|exact Hrow] ].
  rewrite bind_eq. unfold predict_proba at 1. cbn [heap calls].
  rewrite lookup_insert_eq.
  exists f', [CallPredictProba f']. split; [|exact Hrow].
  destruct (model_predict_proba f') as [q| |]; cbv beta iota;
    [ | rewrite <- (assoc_L (++)%list); reflexivity .. ].
  rewrite bind_eq. unfold array_getitem at 1.
  destruct (q !! 0%nat) as [q0|]; cbv beta iota;
    [ | rewrite <- (assoc_L (++)%list); reflexivity ].
  rewrite bind_eq. unfold array_getitem at 1.
  destruct (q0 !! 1%nat) as [probability|]; cbv beta iota;
    rewrite <- (assoc_L (++)%list); reflexivity.
Qed.

(** C3, as the code has it: a type that is not one of the four labels of the
    form (PAIEMENT, TRANSFERT, RETRAIT, DEPOT) makes the dictionary lookup
    raise Python's [KeyError] with that type as argument.  The handler stops
    there, in the state it started from: no DataFrame has been created, so
    the derivation (which creates one, [create_advanced_features_shape]) has
    not run, and the classifier has received no call (with a known label it
    receives one, [analyse_known_type]). *)
Theorem unknown_type_raises_KeyError (transaction_type : string)
    (amount oldbalanceOrg newbalanceOrig oldbalanceDest newbalanceDest : float)
    (w : world) :
  transaction_type ∉ type_labels ->
  analyse transaction_type amount oldbalanceOrg newbalanceOrig
          oldbalanceDest newbalanceDest w
  = (Raise (KeyError transaction_type), w).
Proof.
  intros Hk. unfold analyse, dict_getitem.
  rewrite bind_eq, (dic_type_unknown _ Hk). reflexivity.
Qed.

(** ** Determinism and the frame (C9, C10) *)

(** C9: [create_advanced_features] is deterministic.  Two calls on objects
    with the same columns return objects with the same columns (or fail
    alike), whatever else the store holds and whatever the classifier has been
    asked before; in particular a second call on the same object, in the
    state the first call left, returns what the first returned. *)
Theorem derive_deterministic (w : world) (df : loc) (f : frame) :
  heap w !! df = Some f ->
  deref (create_advanced_features df
           (snd (create_advanced_features df w)))
  = deref (create_advanced_features df w)
  /\ forall (w' : world) (df' : loc),
       heap w' !! df' = Some f ->
       deref (create_advanced_features df' w')
       = deref (create_advanced_features df w).
Proof.
  intros Hdf. split.
  - destruct (create_advanced_features_shape w df f Hdf) as (o & g & Hrun).
    apply create_advanced_features_relocate with f; [|assumption].
    rewrite Hrun. simpl.
    rewrite lookup_insert_ne by (eapply fresh_not_allocated; eassumption).
    assumption.
  - intros w' df' Hdf'.
    apply create_advanced_features_relocate with f; assumption.
Qed.

(** C10: [create_advanced_features] works on a copy.  Whatever the frame, the
    object it was given, and every other object that existed, holds after the
    call what it held before.  On a frame with the raw schema the call
    returns a new object in which every column other than the twelve derived
    ones is the column of the input, so every row reads as the same raw
    transaction, and, when the input had none of the derived columns, whose
    columns are those of the input followed by the twelve derived ones. *)
Theorem derive_works_on_a_copy (w : world) (df : loc) (f : frame) :
  heap w !! df = Some f ->
  (heap (snd (create_advanced_features df w)) !! df = Some f
   /\ forall l, l ∈ dom (heap w) ->
        heap (snd (create_advanced_features df w)) !! l = heap w !! l)
  /\ (has_raw_schema f = true ->
      exists df' f',
        fst (create_advanced_features df w) = Ok df'
        /\ (df' ∉ dom (heap w))
        /\ heap (snd (create_advanced_features df w)) !! df' = Some f'
        /\ (forall k, k ∉ derived_columns -> frame_get k f' = frame_get k f)
        /\ (forall k, k ∈ raw_columns -> frame_get k f' = frame_get k f)
        /\ (forall i, raw_row f' i = raw_row f i)
        /\ (Forall (fun k => frame_get k f = None) derived_columns ->
            frame_columns f'
            = (frame_columns f ++ derived_columns)%list)).
Proof.
  intros Hdf. split.
  - destruct (create_advanced_features_shape w df f Hdf) as (o & g & Hrun).
    rewrite Hrun. simpl. split.
    + rewrite lookup_insert_ne by (eapply fresh_not_allocated; eassumption).
      assumption.
    + intros l Hl. apply lookup_insert_ne. intros <-.
      exact (is_fresh (dom (heap w)) Hl).
  - intros Hs.
    destruct (has_raw_schema_inv f Hs)
      as (a & oo & no & od & nd & Ha & Hoo & Hno & Hod & Hnd).
    rewrite (create_advanced_features_float64 w df f a oo no od nd)
      by assumption.
    exists (fresh (dom (heap w))), (enriched_frame f a oo no od nd). simpl.
    assert (Hraw : forall k, k ∈ raw_columns ->
              frame_get k (enriched_frame f a oo no od nd) = frame_get k f).
    { intros k Hk. apply enriched_frame_other.
      unfold raw_columns in Hk. rewrite !elem_of_cons, elem_of_nil in Hk.
      destruct Hk as [->|[->|[->|[->|[->|[->|[]]]]]]]; by_eval. }
    split; [reflexivity|]. split; [apply is_fresh|].
    split; [apply lookup_insert_eq|].
    split; [intros k Hk; apply enriched_frame_other; assumption|].
    split; [assumption|].
    split; [intros i; apply raw_row_ext; assumption|].
    apply enriched_frame_columns.
Qed.

(** ** Totality and the balance identity (C8, C6) *)

Lemma example_difference_exact :
  exists d, is_finite d = true
            /\ float_value d
               = (float_value (oldbalanceOrg example_raw)
                  - float_value (newbalanceOrig example_raw))%R.
Proof.
  exists 1000%float. split; [reflexivity|].
  unfold float_value, example_raw, oldbalanceOrg, newbalanceOrig.
  change (Prim2SF 1000) with (S754_finite false 8796093022208000 (-43)).
  change (Prim2SF 10000) with (S754_finite false 5497558138880000 (-39)).
  change (Prim2SF 9000) with (S754_finite false 4947802324992000 (-39)).
  unfold SF2R, cond_Zopp.
  change (-39)%Z with (4 + -43)%Z.
  rewrite powerRZ_add by (apply Rgt_not_eq; lra).
  change (powerRZ 2 4) with (2 * (2 * (2 * (2 * 1))))%R.
  lra.
Qed.

(** C8, as the code has it: on every frame with the declared types, whatever
    the values (negative numbers, infinities and NaN included), the derivation
    returns an object and never raises: float64 division and [log1p] do not
    fail, they return an infinity or NaN outside their domain.  A denominator
    [balance + 1] is zero exactly when the balance is -1, so for a
    non-negative balance no division by zero takes place, and non-negative
    arguments of [log1p] are greater than -1, inside its domain. *)
Theorem derive_total (w : world) (df : loc) (f : frame) :
  heap w !! df = Some f ->
  has_raw_schema f = true ->
  (exists df' f',
     create_advanced_features df w
     = (Ok df', World (<[df' := f']> (heap w)) (calls w)))
  /\ forall i r,
       raw_row f i = Some r ->
       (exists f',
          deref (create_advanced_features df w) = Ok f'
          /\ derived_row f' i = Some (spec_formulas r))
       /\ ((oldbalanceOrg r + 1 =? 0)%float = true
           <-> (oldbalanceOrg r =? -1)%float = true)
       /\ ((oldbalanceDest r + 1 =? 0)%float = true
           <-> (oldbalanceDest r =? -1)%float = true)
       /\ ((0 <=? oldbalanceOrg r)%float = true ->
           (oldbalanceOrg r + 1 =? 0)%float = false
           /\ (-1 <? oldbalanceOrg r)%float = true)
       /\ ((0 <=? oldbalanceDest r)%float = true ->
           (oldbalanceDest r + 1 =? 0)%float = false
           /\ (-1 <? oldbalanceDest r)%float = true)
       /\ ((0 <=? amount r)%float = true -> (-1 <? amount r)%float = true).
Proof.
  intros Hdf Hs. split.
  - destruct (has_raw_schema_inv f Hs)
      as (a & oo & no & od & nd & Ha & Hoo & Hno & Hod & Hnd).
    rewrite (create_advanced_features_float64 w df f a oo no od nd)
      by assumption.
    eauto.
  - intros i r Hrow.
    split; [exact (create_advanced_features_row w df f i r Hdf Hrow)|].
    split; [apply add_one_zero_iff|].
    split; [apply add_one_zero_iff|].
    split; [intros H; split;
            [apply add_one_nonzero|apply nonneg_gt_minus_one]; exact H|].
    split; [intros H; split;
            [apply add_one_nonzero|apply nonneg_gt_minus_one]; exact H|].
    apply nonneg_gt_minus_one.
Qed.

(** C6, as the code has it: the balance difference is computed in float64,
    so [balance_diff_orig + newbalanceOrig == oldbalanceOrg] holds for every
    record whose two origin balances are finite and whose exact difference
    [oldbalanceOrg - newbalanceOrig] is itself a float64 number (no rounding
    in the subtraction). *)
Theorem balance_identity_when_exact (w : world) (df : loc) (f : frame)
    (i : nat) (r : raw_transaction) :
  heap w !! df = Some f ->
  raw_row f i = Some r ->
  is_finite (oldbalanceOrg r) = true ->
  is_finite (newbalanceOrig r) = true ->
  (exists d, is_finite d = true
             /\ float_value d
                = (float_value (oldbalanceOrg r)
                   - float_value (newbalanceOrig r))%R) ->
  exists f' d,
    deref (create_advanced_features df w) = Ok f'
    /\ derived_row f' i = Some d
    /\ balance_diff_orig d = (oldbalanceOrg r - newbalanceOrig r)%float
    /\ (balance_diff_orig d + newbalanceOrig r =? oldbalanceOrg r)%float
       = true.
Proof.
  intros Hdf Hrow Ho Hn Hex.
  destruct (create_advanced_features_row w df f i r Hdf Hrow) as (f' & H1 & H2).
  exists f', (spec_formulas r).
  split; [assumption|]. split; [assumption|]. split; [reflexivity|].
  apply sub_add_exact; assumption.
Qed.

(** ** Further properties of the derivation and of the handler *)

Lemma is_float64_inv (o : option series) :
  is_float64 o = true -> exists l, o = Some (SFloat64 l).
Proof. destruct o as [[]|]; try discriminate. eauto. Qed.

(** X1: a missing numeric column makes the derivation raise [KeyError] with
    the label of the first missing column in the order in which the columns
    are read (oldbalanceOrg, newbalanceOrig, newbalanceDest, oldbalanceDest,
    amount), the columns read before it being float64.  In particular a frame
    with no column at all raises [KeyError] on oldbalanceOrg. *)
Theorem missing_column_raises_KeyError (w : world) (df : loc) (f : frame)
    (pre post : list string) (k : string) :
  heap w !! df = Some f ->
  read_order = (pre ++ k :: post)%list ->
  Forall (fun k' => is_float64 (frame_get k' f) = true) pre ->
  frame_get k f = None ->
  fst (create_advanced_features df w) = Raise (KeyError k).
Proof.
  intros Hdf Hord Hpre Hk. unfold read_order in Hord.
  unfold create_advanced_features.
  rewrite bind_eq, (copy_eq _ _ _ Hdf). cbv beta iota.
  do 5 (destruct pre as [|? pre]; simpl in Hord;
        [ injection Hord as <- <-
        | injection Hord as <- Hord;
          apply Forall_cons_1 in Hpre as [?Hf Hpre];
          match goal with
          | H : is_float64 _ = true |- _ => apply is_float64_inv in H as [? H]
          end ];
        [ run | ]).
  destruct pre; discriminate Hord.
Qed.

Lemma frame_set_same (k : string) (s : series) (f : frame) :
  frame_get k f = Some s -> frame_set k s f = f.
Proof.
  induction f as [|[k0 s0] f IH]; simpl; [discriminate|].
  destruct (decide (k0 = k)) as [->|Hne].
  - intros [= ->]. reflexivity.
  - intros H. rewrite IH by exact H. reflexivity.
Qed.

(** Deriving a derived frame changes nothing: the raw columns are the same,
    so each assignment writes the value the column already has. *)
Lemma enriched_frame_idempotent (f : frame) (a oo no od nd : list float) :
  enriched_frame (enriched_frame f a oo no od nd) a oo no od nd
  = enriched_frame f a oo no od nd.
Proof.
  set (g := enriched_frame f a oo no od nd).
  unfold enriched_frame at 1. cbv zeta.
  repeat (rewrite (frame_set_same _ _ g);
          [ | unfold g, enriched_frame; cbv zeta;
              repeat first
                [ rewrite frame_get_set_eq
                | rewrite frame_get_set_ne by discriminate ];
              reflexivity ]).
  reflexivity.
Qed.

(** X2: the derivation is idempotent.  Applied to the frame it returned,
    it returns a frame with the same columns, in the same order and with the
    same values: the derived columns are recomputed from the unchanged raw
    columns and overwritten in place. *)
Theorem derive_idempotent (w : world) (df : loc) (f : frame) :
  heap w !! df = Some f ->
  has_raw_schema f = true ->
  exists df1 f1,
    fst (create_advanced_features df w) = Ok df1
    /\ heap (snd (create_advanced_features df w)) !! df1 = Some f1
    /\ deref (create_advanced_features df1
                (snd (create_advanced_features df w))) = Ok f1.
Proof.
  intros Hdf Hs.
  destruct (has_raw_schema_inv f Hs)
    as (a & oo & no & od & nd & Ha & Hoo & Hno & Hod & Hnd).
  rewrite (create_advanced_features_float64 w df f a oo no od nd)
    by assumption.
  set (l := fresh (dom (heap w))).
  set (g := enriched_frame f a oo no od nd).
  exists l, g. cbn [fst snd heap].
  split; [reflexivity|]. split; [apply lookup_insert_eq|].
  rewrite (create_advanced_features_float64 _ l g a oo no od nd);
    try (unfold g; rewrite enriched_frame_other by by_eval; assumption).
  - unfold g. rewrite enriched_frame_idempotent. apply deref_insert.
  - apply lookup_insert_eq.
Qed.

Lemma frame_get_None (k : string) (f : frame) :
  frame_get k f = None <-> k ∉ frame_columns f.
Proof.
  unfold frame_columns. induction f as [|[k0 s0] f IH]; simpl.
  - split; [intros _; apply not_elem_of_nil | reflexivity].
  - rewrite not_elem_of_cons. destruct (decide (k0 = k)) as [->|Hne].
    + split; [discriminate | intros [H _]; contradiction].
    + rewrite IH. split; [intros H; split; [congruence|exact H] | intros [_ H]; exact H].
Qed.

Lemma filter_ext_in {A} (P Q : A -> Prop) `{!forall x, Decision (P x)}
    `{!forall x, Decision (Q x)} (l : list A) :
  (forall x, x ∈ l -> P x <-> Q x) -> filter P l = filter Q l.
Proof.
  induction l as [|x l IH]; intros Hext; [reflexivity|].
  rewrite !filter_cons.
  rewrite IH by (intros y Hy; apply Hext; right; exact Hy).
  destruct (decide (P x)) as [HP|HP], (decide (Q x)) as [HQ|HQ];
    try reflexivity; exfalso;
    [ apply HQ | apply HP ]; apply (Hext x); try left; assumption.
Qed.

Lemma frame_columns_set_all (kvs : list (string * series)) (f : frame) :
  NoDup kvs.*1 ->
  frame_columns (frame_set_all kvs f)
  = (frame_columns f
     ++ filter (fun k => k ∉ frame_columns f) kvs.*1)%list.
Proof.
  revert f. induction kvs as [|[k s] kvs IH]; intros f Hnd.
  - simpl. rewrite app_nil_r. reflexivity.
  - apply NoDup_cons in Hnd as [Hk Hnd].
    change (frame_set_all ((k, s) :: kvs) f)
      with (frame_set_all kvs (frame_set k s f)).
    rewrite (IH _ Hnd), frame_columns_set.
    change (((k, s) :: kvs).*1) with (k :: kvs.*1).
    destruct (frame_get k f) as [s0|] eqn:E.
    + rewrite filter_cons_False; [reflexivity|].
      intros Hn. apply frame_get_None in Hn. congruence.
    + apply frame_get_None in E.
      rewrite filter_cons_True by exact E.
      rewrite <- (assoc_L (++)%list). simpl. do 2 f_equal.
      apply filter_ext_in. intros x Hx.
      rewrite not_elem_of_app, list_elem_of_singleton.
      split; [intros [H _]; exact H|]. intros H. split; [exact H|].
      intros ->. contradiction.
Qed.

Lemma enriched_frame_set_all (f : frame) (a oo no od nd : list float) :
  exists kvs,
    kvs.*1 = derived_columns
    /\ enriched_frame f a oo no od nd = frame_set_all kvs f.
Proof.
  eexists [(_, _); (_, _); (_, _); (_, _); (_, _); (_, _);
           (_, _); (_, _); (_, _); (_, _); (_, _); (_, _)].
  split; reflexivity.
Qed.

(** X3: the columns of the result are the columns of the input, in their
    order, followed by those of the twelve derived labels that the input did
    not have, in the order of the assignments; a derived column that existed
    is overwritten where it stands.  No label is duplicated: if the labels of
    the input are distinct, so are those of the result. *)
Theorem derive_column_labels (w : world) (df : loc) (f : frame) :
  heap w !! df = Some f ->
  has_raw_schema f = true ->
  exists f',
    deref (create_advanced_features df w) = Ok f'
    /\ frame_columns f'
       = (frame_columns f
          ++ filter (fun k => k ∉ frame_columns f) derived_columns)%list
    /\ (NoDup (frame_columns f) -> NoDup (frame_columns f')).
Proof.
  intros Hdf Hs.
  destruct (has_raw_schema_inv f Hs)
    as (a & oo & no & od & nd & Ha & Hoo & Hno & Hod & Hnd).
  rewrite (create_advanced_features_float64 w df f a oo no od nd)
    by assumption.
  exists (enriched_frame f a oo no od nd).
  split; [apply deref_insert|].
  destruct (enriched_frame_set_all f a oo no od nd) as (kvs & Hk & ->).
  assert (Hd : NoDup derived_columns) by by_eval.
  assert (Hc : frame_columns (frame_set_all kvs f)
               = (frame_columns f
                  ++ filter (fun k => k ∉ frame_columns f)
                       derived_columns)%list).
  { rewrite <- Hk. apply frame_columns_set_all. rewrite Hk. exact Hd. }
  split; [exact Hc|].
  intros Hf. rewrite Hc. apply NoDup_app. split; [exact Hf|]. split.
  - intros x Hx Hy. apply list_elem_of_filter in Hy as [Hy _]. contradiction.
  - apply NoDup_filter. exact Hd.
Qed.

Ltac get_enriched :=
  unfold enriched_frame; cbv zeta;
  repeat first
    [ rewrite frame_get_set_eq
    | rewrite frame_get_set_ne by discriminate ];
  reflexivity.

(** X4: the derivation keeps the number of rows.  If the five numeric
    columns are float64 columns of [n] rows, each of the twelve derived
    columns has [n] rows; with [n = 0] (an empty frame with the schema) the
    derivation succeeds and the derived columns are empty. *)
Theorem derive_preserves_row_count (w : world) (df : loc) (f : frame)
    (n : nat) :
  heap w !! df = Some f ->
  Forall (float64_rows f n) read_order ->
  exists f',
    deref (create_advanced_features df w) = Ok f'
    /\ Forall (fun k => exists s, frame_get k f' = Some s
                                  /\ series_length s = n) derived_columns.
Proof.
  intros Hdf Hrows. unfold read_order in Hrows.
  repeat match goal with
    | H : Forall _ (_ :: _) |- _ => apply Forall_cons_1 in H as [[? [? ?]] H]
    end.
  erewrite create_advanced_features_float64 by eassumption.
  eexists. split; [apply deref_insert|].
  unfold derived_columns.
  repeat (apply Forall_cons; split;
          [ eexists; split; [get_enriched|];
            cbn [series_length];
            rewrite ?length_fmap, ?length_zip_with, ?length_fmap; lia | ]).
  apply Forall_nil_2.
Qed.

(** X5: whatever the values (NaN and infinities included), the three
    indicator columns of the result are int64 columns whose cells are 0 or 1,
    and the nine other derived columns are float64 columns. *)
Theorem derive_indicators_are_binary (w : world) (df : loc) (f : frame) :
  heap w !! df = Some f ->
  has_raw_schema f = true ->
  exists f',
    deref (create_advanced_features df w) = Ok f'
    /\ Forall (fun k => exists l, frame_get k f' = Some (SInt64 l)
                                  /\ Forall (fun v => v = 0%Z \/ v = 1%Z) l)
         indicator_columns
    /\ Forall (fun k => k ∈ indicator_columns
                        \/ is_float64 (frame_get k f') = true)
         derived_columns.
Proof.
  intros Hdf Hs.
  destruct (has_raw_schema_inv f Hs)
    as (a & oo & no & od & nd & Ha & Hoo & Hno & Hod & Hnd).
  rewrite (create_advanced_features_float64 w df f a oo no od nd)
    by assumption.
  eexists. split; [apply deref_insert|]. split.
  - unfold indicator_columns.
    repeat (apply Forall_cons; split;
            [ eexists; split; [get_enriched|];
              apply Forall_fmap, Forall_fmap, Forall_true;
              intros x; simpl;
              match goal with
              | |- context [if ?b then _ else _] => destruct b
              end; auto | ]).
    apply Forall_nil_2.
  - unfold derived_columns.
    repeat (apply Forall_cons; split;
            [ first [ left; by_eval
                    | right;
                      match goal with
                      | |- is_float64 ?o = true =>
                          let H := fresh in
                          eassert (H : o = Some (SFloat64 _))
                            by get_enriched;
                          rewrite H; reflexivity
                      end ] | ]).
    apply Forall_nil_2.
Qed.

(** With a known label the handler builds the one-row frame, derives it and
    goes on to the classifier with the derived frame. *)
Lemma analyse_reaches_classifier (transaction_type code : string)
    (amount oldbalanceOrg newbalanceOrig oldbalanceDest newbalanceDest : float)
    (w : world) :
  dic_type !! transaction_type = Some code ->
  let r := RawTransaction code amount oldbalanceOrg newbalanceOrig
                          oldbalanceDest newbalanceDest in
  let h1 := <[fresh (dom (heap w)) := input_frame r]> (heap w) in
  analyse transaction_type amount oldbalanceOrg newbalanceOrig
          oldbalanceDest newbalanceDest w
  = (p ← predict (fresh (dom h1));
     prediction ← array_getitem p 0;
     q ← predict_proba (fresh (dom h1));
     q0 ← array_getitem q 0;
     probability ← array_getitem q0 1;
     mret (prediction, probability))
      (World (<[fresh (dom h1) := submitted_frame r]> h1) (calls w)).
Proof.
  intros Hk r h1. unfold analyse.
  rewrite bind_eq. unfold dict_getitem at 1. rewrite Hk. cbv beta iota.
  rewrite bind_eq. unfold DataFrame at 1. cbv beta iota zeta.
  rewrite bind_eq.
  rewrite (create_advanced_features_float64
             (World h1 (calls w)) (fresh (dom (heap w))) (input_frame r)
             [amount] [oldbalanceOrg] [newbalanceOrig] [oldbalanceDest]
             [newbalanceDest]);
    [ | apply lookup_insert_eq | reflexivity ..].
  reflexivity.
Qed.

Lemma predict_insert (l : loc) (f : frame) (h : gmap loc frame)
    (c : list call) :
  predict l (World (<[l := f]> h) c)
  = (model_predict f, World (<[l := f]> h) (c ++ [CallPredict f])).
Proof. unfold predict. simpl. rewrite lookup_insert_eq. reflexivity. Qed.

Lemma predict_proba_insert (l : loc) (f : frame) (h : gmap loc frame)
    (c : list call) :
  predict_proba l (World (<[l := f]> h) c)
  = (model_predict_proba f,
     World (<[l := f]> h) (c ++ [CallPredictProba f])).
Proof.
  unfold predict_proba. simpl. rewrite lookup_insert_eq.
  reflexivity.
Qed.

Lemma type_label_code (transaction_type : string) :
  transaction_type ∈ type_labels ->
  exists code,
    dic_type !! transaction_type = Some code /\ code ∈ canonical_codes.
Proof.
  unfold type_labels. rewrite !elem_of_cons, elem_of_nil.
  intros [->|[->|[->|[->|[]]]]]; eexists; (split; [reflexivity|by_eval]).
Qed.

(** X6: on a submission of the form (a label of the select box), the
    handler calls the classifier: [predict] first, then at most
    [predict_proba], both with the same frame.  That frame has one row; its
    columns are the six raw columns followed by the twelve derived ones, in
    this order; its [type] is the canonical code of the label and its derived
    fields are the formulas on the values of the form. *)
Theorem classifier_receives_enriched_record (transaction_type : string)
    (amount oldbalanceOrg newbalanceOrig oldbalanceDest newbalanceDest : float)
    (w : world) :
  transaction_type ∈ type_labels ->
  exists code rest,
    let r := RawTransaction code amount oldbalanceOrg newbalanceOrig
                            oldbalanceDest newbalanceDest in
    dic_type !! transaction_type = Some code
    /\ code ∈ canonical_codes
    /\ calls (snd (analyse transaction_type amount oldbalanceOrg
                          newbalanceOrig oldbalanceDest newbalanceDest w))
       = (calls w ++ CallPredict (submitted_frame r) :: rest)%list
    /\ (rest = [] \/ rest = [CallPredictProba (submitted_frame r)])
    /\ frame_columns (submitted_frame r)
       = (raw_columns ++ derived_columns)%list
    /\ raw_row (submitted_frame r) 0 = Some r
    /\ raw_row (submitted_frame r) 1 = None
    /\ derived_row (submitted_frame r) 0 = Some (spec_formulas r).
Proof.
  intros Hty. destruct (type_label_code _ Hty) as (code & Hk & Hcode).
  rewrite (analyse_reaches_classifier _ code _ _ _ _ _ _ Hk). cbv zeta.
  set (r := RawTransaction code amount oldbalanceOrg newbalanceOrig
                           oldbalanceDest newbalanceDest).
  set (f' := submitted_frame r).
  set (h1 := <[fresh (dom (heap w)) := input_frame r]> (heap w)).
  assert (Hrest : exists rest,
            calls (snd ((p ← predict (fresh (dom h1));
                         prediction ← array_getitem p 0;
                         q ← predict_proba (fresh (dom h1));
                         q0 ← array_getitem q 0;
                         probability ← array_getitem q0 1;
                         mret (prediction, probability))
                          (World (<[fresh (dom h1) := f']> h1) (calls w))))
            = (calls w ++ CallPredict f' :: rest)%list
            /\ (rest = [] \/ rest = [CallPredictProba f'])).
  { rewrite bind_eq, predict_insert.
    destruct (model_predict f') as [p| |]; cbv beta iota;
      [ | exists []; split; [reflexivity|left; reflexivity] .. ].
    rewrite bind_eq. unfold array_getitem at 1.
    destruct (p !! 0%nat) as [prediction|]; cbv beta iota;
      [ | exists []; split; [reflexivity|left; reflexivity] ].
    rewrite bind_eq, predict_proba_insert.
    exists [CallPredictProba f']. split; [|right; reflexivity].
    destruct (model_predict_proba f') as [q| |]; cbv beta iota;
      [ | rewrite <- (assoc_L (++)%list); reflexivity .. ].
    rewrite bind_eq. unfold array_getitem at 1.
    destruct (q !! 0%nat) as [q0|]; cbv beta iota;
      [ | rewrite <- (assoc_L (++)%list); reflexivity ].
    rewrite bind_eq. unfold array_getitem at 1.
    destruct (q0 !! 1%nat) as [probability|]; cbv beta iota;
      rewrite <- (assoc_L (++)%list); reflexivity. }
  destruct Hrest as (rest & Hcalls & Hrest).
  exists code, rest.
  split; [exact Hk|]. split; [exact Hcode|]. split; [exact Hcalls|].
  split; [exact Hrest|].
  split; [reflexivity|]. split; [reflexivity|]. split; [reflexivity|].
  apply (derived_row_enriched (input_frame r)); reflexivity.
Qed.

(** X7: when the classifier answers, the handler returns the label of the
    first row and the probability of class 1 of the first row
    ([predict(...)[0]] and [predict_proba(...)[0, 1]]), after exactly two
    calls of the classifier, and leaves every DataFrame that existed before
    unchanged. *)
Theorem handler_returns_label_and_fraud_probability
    (transaction_type code : string)
    (amount oldbalanceOrg newbalanceOrig oldbalanceDest newbalanceDest : float)
    (w : world) (p : list Z) (q : list (list float)) (q0 : list float)
    (y : Z) (pr : float) :
  let r := RawTransaction code amount oldbalanceOrg newbalanceOrig
                          oldbalanceDest newbalanceDest in
  dic_type !! transaction_type = Some code ->
  model_predict (submitted_frame r) = Ok p ->
  p !! 0%nat = Some y ->
  model_predict_proba (submitted_frame r) = Ok q ->
  q !! 0%nat = Some q0 ->
  q0 !! 1%nat = Some pr ->
  fst (analyse transaction_type amount oldbalanceOrg newbalanceOrig
               oldbalanceDest newbalanceDest w) = Ok (y, pr)
  /\ calls (snd (analyse transaction_type amount oldbalanceOrg
                        newbalanceOrig oldbalanceDest newbalanceDest w))
     = (calls w ++ [CallPredict (submitted_frame r);
                    CallPredictProba (submitted_frame r)])%list
  /\ forall l, l ∈ dom (heap w) ->
       heap (snd (analyse transaction_type amount oldbalanceOrg
                          newbalanceOrig oldbalanceDest newbalanceDest w))
         !! l = heap w !! l.
Proof.
  intros r Hk Hp Hy Hq Hq0 Hpr.
  set (h1 := <[fresh (dom (heap w)) := input_frame r]> (heap w)).
  assert (Hrun : analyse transaction_type amount oldbalanceOrg newbalanceOrig
                         oldbalanceDest newbalanceDest w
                 = (Ok (y, pr),
                    World (<[fresh (dom h1) := submitted_frame r]> h1)
                          ((calls w ++ [CallPredict (submitted_frame r)])
                           ++ [CallPredictProba (submitted_frame r)]))).
  { rewrite (analyse_reaches_classifier _ code _ _ _ _ _ _ Hk). cbv zeta.
    fold r h1.
    rewrite bind_eq, predict_insert, Hp. cbv beta iota.
    rewrite bind_eq. unfold array_getitem at 1. rewrite Hy. cbv beta iota.
    rewrite bind_eq, predict_proba_insert, Hq. cbv beta iota.
    rewrite bind_eq. unfold array_getitem at 1. rewrite Hq0. cbv beta iota.
    rewrite bind_eq. unfold array_getitem at 1. rewrite Hpr. reflexivity. }
  rewrite Hrun. cbn [fst snd calls heap].
  split; [reflexivity|]. split.
  - rewrite <- (assoc_L (++)%list). reflexivity.
  - intros l Hl.
    assert (Hl1 : l ∈ dom h1)
      by (unfold h1; rewrite dom_insert_L; apply elem_of_union_r; exact Hl).
    rewrite lookup_insert_ne by (intros <-; exact (is_fresh (dom h1) Hl1)).
    unfold h1. apply lookup_insert_ne. intros <-.
    exact (is_fresh (dom (heap w)) Hl).
Qed.

(** X8: an exception raised by [model.predict] propagates: the handler
    raises the same exception and [predict_proba] is not called. *)
Theorem classifier_exception_propagates (transaction_type code : string)
    (amount oldbalanceOrg newbalanceOrig oldbalanceDest newbalanceDest : float)
    (w : world) (e : exn) :
  let r := RawTransaction code amount oldbalanceOrg newbalanceOrig
                          oldbalanceDest newbalanceDest in
  dic_type !! transaction_type = Some code ->
  model_predict (submitted_frame r) = Raise e ->
  fst (analyse transaction_type amount oldbalanceOrg newbalanceOrig
               oldbalanceDest newbalanceDest w) = Raise e
  /\ calls (snd (analyse transaction_type amount oldbalanceOrg
                        newbalanceOrig oldbalanceDest newbalanceDest w))
     = (calls w ++ [CallPredict (submitted_frame r)])%list.
Proof.
  intros r Hk Hp.
  rewrite (analyse_reaches_classifier _ code _ _ _ _ _ _ Hk). cbv zeta.
  fold r. rewrite bind_eq, predict_insert, Hp. split; reflexivity.
Qed.

(** X9: if the probabilities of the first row have fewer than two columns
    (a classifier fitted on a single class), indexing [[0, 1]] raises
    [IndexError]. *)
Theorem single_class_probabilities_raise_IndexError
    (transaction_type code : string)
    (amount oldbalanceOrg newbalanceOrig oldbalanceDest newbalanceDest : float)
    (w : world) (p : list Z) (q : list (list float)) (q0 : list float)
    (y : Z) :
  let r := RawTransaction code amount oldbalanceOrg newbalanceOrig
                          oldbalanceDest newbalanceDest in
  dic_type !! transaction_type = Some code ->
  model_predict (submitted_frame r) = Ok p ->
  p !! 0%nat = Some y ->
  model_predict_proba (submitted_frame r) = Ok q ->
  q !! 0%nat = Some q0 ->
  length q0 < 2 ->
  exists msg,
    fst (analyse transaction_type amount oldbalanceOrg newbalanceOrig
                 oldbalanceDest newbalanceDest w) = Raise (IndexError msg).
Proof.
  intros r Hk Hp Hy Hq Hq0 Hlen.
  rewrite (analyse_reaches_classifier _ code _ _ _ _ _ _ Hk). cbv zeta.
  fold r.
  rewrite bind_eq, predict_insert, Hp. cbv beta iota.
  rewrite bind_eq. unfold array_getitem at 1. rewrite Hy. cbv beta iota.
  rewrite bind_eq, predict_proba_insert, Hq. cbv beta iota.
  rewrite bind_eq. unfold array_getitem at 1. rewrite Hq0. cbv beta iota.
  rewrite bind_eq. unfold array_getitem at 1.
  rewrite (lookup_ge_None_2 q0 1) by lia.
  eexists. reflexivity.
Qed.

(** X10: when the amount is exactly the movement of a balance, the balance
    error is zero.  For finite values, if amount = oldbalanceOrg -
    newbalanceOrig as real numbers then error_balance_orig == 0, and if
    amount = newbalanceDest - oldbalanceDest then error_balance_dest == 0:
    no rounding error is left in the float64 computation. *)
Theorem exact_movement_has_zero_error (w : world) (df : loc) (f : frame)
    (i : nat) (r : raw_transaction) :
  heap w !! df = Some f ->
  raw_row f i = Some r ->
  is_finite (amount r) = true ->
  exists f' d,
    deref (create_advanced_features df w) = Ok f'
    /\ derived_row f' i = Some d
    /\ (is_finite (oldbalanceOrg r) = true ->
        is_finite (newbalanceOrig r) = true ->
        float_value (amount r)
        = (float_value (oldbalanceOrg r)
           - float_value (newbalanceOrig r))%R ->
        (error_balance_orig d =? 0)%float = true)
    /\ (is_finite (newbalanceDest r) = true ->
        is_finite (oldbalanceDest r) = true ->
        float_value (amount r)
        = (float_value (newbalanceDest r)
           - float_value (oldbalanceDest r))%R ->
        (error_balance_dest d =? 0)%float = true).
Proof.
  intros Hdf Hrow Ha.
  destruct (create_advanced_features_row w df f i r Hdf Hrow) as (f' & H1 & H2).
  exists f', (spec_formulas r).
  split; [assumption|]. split; [assumption|].
  split; intros; apply sub_sub_exact_zero; assumption.
Qed.

(** X11: with a zero old balance the ratio is the amount itself: the
    denominator is 0 + 1 = 1 and float64 division by 1 is exact.  For the
    destination this is the case in which is_zero_balance_dest is 1. *)
Theorem zero_old_balance_ratio_is_amount (w : world) (df : loc) (f : frame)
    (i : nat) (r : raw_transaction) :
  heap w !! df = Some f ->
  raw_row f i = Some r ->
  exists f' d,
    deref (create_advanced_features df w) = Ok f'
    /\ derived_row f' i = Some d
    /\ ((oldbalanceOrg r =? 0)%float = true ->
        amount_to_oldbalance_orig d = amount r)
    /\ ((oldbalanceDest r =? 0)%float = true ->
        amount_to_oldbalance_dest d = amount r
        /\ is_zero_balance_dest d = 1%Z).
Proof.
  intros Hdf Hrow.
  destruct (create_advanced_features_row w df f i r Hdf Hrow) as (f' & H1 & H2).
  exists f', (spec_formulas r).
  split; [assumption|]. split; [assumption|]. simpl. split.
  - intros H. rewrite (zero_add_one _ H). apply div_one.
  - intros H. rewrite (zero_add_one _ H), H. split; [apply div_one|reflexivity].
Qed.


(** X13: for a finite non-negative amount and non-negative old balances
    (what the form accepts), both ratios are non-negative numbers: neither
    negative nor NaN. *)
Theorem ratios_are_nonnegative (w : world) (df : loc) (f : frame)
    (i : nat) (r : raw_transaction) :
  heap w !! df = Some f ->
  raw_row f i = Some r ->
  is_finite (amount r) = true ->
  (0 <=? amount r)%float = true ->
  (0 <=? oldbalanceOrg r)%float = true ->
  (0 <=? oldbalanceDest r)%float = true ->
  exists f' d,
    deref (create_advanced_features df w) = Ok f'
    /\ derived_row f' i = Some d
    /\ (0 <=? amount_to_oldbalance_orig d)%float = true
    /\ (0 <=? amount_to_oldbalance_dest d)%float = true.
Proof.
  intros Hdf Hrow Hfa Ha Ho Hd.
  destruct (create_advanced_features_row w df f i r Hdf Hrow) as (f' & H1 & H2).
  exists f', (spec_formulas r).
  split; [assumption|]. split; [assumption|].
  split; apply ratio_nonneg; assumption.
Qed.

(** X14: zero balances.  When the new origin balance is zero (the account
    is emptied, is_zero_balance_orig = 1) balance_diff_orig equals the old
    balance; when both destination balances are zero, error_balance_dest
    equals minus the amount. *)
Theorem zero_balances_simplify_features (w : world) (df : loc) (f : frame)
    (i : nat) (r : raw_transaction) :
  heap w !! df = Some f ->
  raw_row f i = Some r ->
  exists f' d,
    deref (create_advanced_features df w) = Ok f'
    /\ derived_row f' i = Some d
    /\ ((newbalanceOrig r =? 0)%float = true ->
        is_nan (oldbalanceOrg r) = false ->
        is_zero_balance_orig d = 1%Z
        /\ (balance_diff_orig d =? oldbalanceOrg r)%float = true)
    /\ ((oldbalanceDest r =? 0)%float = true ->
        (newbalanceDest r =? 0)%float = true ->
        is_nan (amount r) = false ->
        (error_balance_dest d =? - amount r)%float = true).
Proof.
  intros Hdf Hrow.
  destruct (create_advanced_features_row w df f i r Hdf Hrow) as (f' & H1 & H2).
  exists f', (spec_formulas r).
  split; [assumption|]. split; [assumption|]. simpl. split.
  - intros Hn Ho. rewrite Hn. split; [reflexivity|].
    apply sub_zero; assumption.
  - intros Hx Hy Ha. apply zero_sub_zero_sub; assumption.
Qed.

End Application.

(** ** The claims at concrete inputs *)

(** C1 on the worked example. *)
Lemma derive_computes_spec_formulas_witness :
  heap example_world !! 1%positive = Some (input_frame example_raw)
  /\ raw_row (input_frame example_raw) 0 = Some example_raw
  /\ exists f',
       deref (create_advanced_features any_log1p 1%positive example_world)
       = Ok f'
       /\ derived_row f' 0 = Some (spec_formulas any_log1p example_raw).
Proof.
  split; [reflexivity|]. split; [reflexivity|].
  apply (derive_computes_spec_formulas any_log1p example_world 1%positive
           (input_frame example_raw) 0 example_raw); reflexivity.
Defined.

(** C3 as claimed fails: the type "WITHDRAWAL" makes the handler raise
    [KeyError], not an exception of a class [UnknownTransactionType] (the
    program defines no such class). *)
Lemma withdrawal_raises_KeyError :
  exists e,
    analyse any_log1p no_classifier no_classifier
            "WITHDRAWAL" 1000 10000 9000 0 0 initial_world
    = (Raise e, initial_world)
    /\ exn_class e = "KeyError"
    /\ exn_class e <> "UnknownTransactionType".
Proof.
  exists (KeyError "WITHDRAWAL"). split; [|split].
  - vm_compute. reflexivity.
  - reflexivity.
  - discriminate.
Qed.

(** C3 as amended, on "WITHDRAWAL". *)
Lemma unknown_type_raises_KeyError_witness :
("WITHDRAWAL" ∉ type_labels)
  /\ analyse any_log1p no_classifier no_classifier
             "WITHDRAWAL" 1000 10000 9000 0 0 initial_world
     = (Raise (KeyError "WITHDRAWAL"), initial_world).
Proof.
  split; [by_eval|].
  apply (unknown_type_raises_KeyError any_log1p no_classifier no_classifier
           "WITHDRAWAL" 1000 10000 9000 0 0 initial_world).
  by_eval.
Defined.

(** C4 on the worked example. *)
Lemma large_transaction_iff_witness :
  heap example_world !! 1%positive = Some (input_frame example_raw)
  /\ raw_row (input_frame example_raw) 0 = Some example_raw
  /\ exists f' d,
       deref (create_advanced_features any_log1p 1%positive example_world)
       = Ok f'
       /\ derived_row f' 0 = Some d
       /\ (large_transaction d = 1%Z
           <-> (200000 <? amount example_raw)%float = true)
       /\ (large_transaction d = 0%Z
           <-> (200000 <? amount example_raw)%float = false)
       /\ (amount example_raw = 200000%float -> large_transaction d = 0%Z).
Proof.
  split; [reflexivity|]. split; [reflexivity|].
  apply (large_transaction_iff any_log1p example_world 1%positive
           (input_frame example_raw) 0 example_raw); reflexivity.
Defined.

(** C5 on the worked example. *)
Lemma zero_balance_indicators_witness :
  heap example_world !! 1%positive = Some (input_frame example_raw)
  /\ raw_row (input_frame example_raw) 0 = Some example_raw
  /\ exists f' d,
       deref (create_advanced_features any_log1p 1%positive example_world)
       = Ok f'
       /\ derived_row f' 0 = Some d
       /\ (is_zero_balance_orig d = 1%Z
           <-> (newbalanceOrig example_raw =? 0)%float = true)
       /\ (is_zero_balance_orig d = 0%Z
           <-> (newbalanceOrig example_raw =? 0)%float = false)
       /\ (is_zero_balance_dest d = 1%Z
           <-> (oldbalanceDest example_raw =? 0)%float = true)
       /\ (is_zero_balance_dest d = 0%Z
           <-> (oldbalanceDest example_raw =? 0)%float = false).
Proof.
  split; [reflexivity|]. split; [reflexivity|].
  apply (zero_balance_indicators any_log1p example_world 1%positive
           (input_frame example_raw) 0 example_raw); reflexivity.
Defined.

(** C6 as claimed fails: for the deposit 0.1 -> 10000 the program computes
    balance_diff_orig = 0.1 - 10000 = -9999.899999999999636, and adding
    10000 back gives 0.1000000000003638, not 0.1. *)
Lemma balance_identity_fails_on_deposit :
  exists f' d,
    deref ((DataFrame (input_frame deposit_raw)
              ≫= create_advanced_features any_log1p) initial_world) = Ok f'
    /\ derived_row f' 0 = Some d
    /\ balance_diff_orig d = (-0x1.387f333333333p+13)%float
    /\ (balance_diff_orig d + newbalanceOrig deposit_raw)%float
       = 0x1.99999999a0000p-4%float
    /\ (balance_diff_orig d + newbalanceOrig deposit_raw
        =? oldbalanceOrg deposit_raw)%float = false.
Proof.
  rewrite bind_eq. unfold DataFrame at 1. cbv beta iota zeta.
  destruct (create_advanced_features_row any_log1p
              (World (<[fresh (dom (heap initial_world))
                        := input_frame deposit_raw]> (heap initial_world))
                     (calls initial_world))
              (fresh (dom (heap initial_world)))
              (input_frame deposit_raw) 0 deposit_raw)
    as (f' & Hrun & Hrow).
  - simpl. apply lookup_insert_eq.
  - reflexivity.
  - exists f', (spec_formulas any_log1p deposit_raw).
    repeat split; try assumption; reflexivity.
Qed.

(** C6 as amended, on the worked example: 10000 - 9000 is exact. *)
Lemma balance_identity_when_exact_witness :
  heap example_world !! 1%positive = Some (input_frame example_raw)
  /\ raw_row (input_frame example_raw) 0 = Some example_raw
  /\ is_finite (oldbalanceOrg example_raw) = true
  /\ is_finite (newbalanceOrig example_raw) = true
  /\ (exists d, is_finite d = true
                /\ float_value d
                   = (float_value (oldbalanceOrg example_raw)
                      - float_value (newbalanceOrig example_raw))%R)
  /\ exists f' d,
       deref (create_advanced_features any_log1p 1%positive example_world)
       = Ok f'
       /\ derived_row f' 0 = Some d
       /\ balance_diff_orig d
          = (oldbalanceOrg example_raw - newbalanceOrig example_raw)%float
       /\ (balance_diff_orig d + newbalanceOrig example_raw
           =? oldbalanceOrg example_raw)%float = true.
Proof.
  split; [reflexivity|]. split; [reflexivity|].
  split; [reflexivity|]. split; [reflexivity|].
  split; [exact example_difference_exact|].
  apply (balance_identity_when_exact any_log1p example_world 1%positive
           (input_frame example_raw) 0 example_raw);
    try reflexivity.
  exact example_difference_exact.
Defined.

(** C8 as claimed fails: with an origin balance of -1 the denominator
    [oldbalanceOrg + 1] is zero.  The division takes place all the same and
    the derivation returns, with the ratio 1000 / 0 = +infinity. *)
Lemma division_by_zero_at_minus_one :
  exists f' d,
    deref ((DataFrame (input_frame minus_one_raw)
              ≫= create_advanced_features any_log1p) initial_world) = Ok f'
    /\ derived_row f' 0 = Some d
    /\ (oldbalanceOrg minus_one_raw + 1 =? 0)%float = true
    /\ amount_to_oldbalance_orig d
       = (amount minus_one_raw / (oldbalanceOrg minus_one_raw + 1))%float
    /\ amount_to_oldbalance_orig d = infinity.
Proof.
  rewrite bind_eq. unfold DataFrame at 1. cbv beta iota zeta.
  destruct (create_advanced_features_row any_log1p
              (World (<[fresh (dom (heap initial_world))
                        := input_frame minus_one_raw]> (heap initial_world))
                     (calls initial_world))
              (fresh (dom (heap initial_world)))
              (input_frame minus_one_raw) 0 minus_one_raw)
    as (f' & Hrun & Hrow).
  - simpl. apply lookup_insert_eq.
  - reflexivity.
  - exists f', (spec_formulas any_log1p minus_one_raw).
    repeat split; try assumption; reflexivity.
Qed.

(** C8 as amended, on the worked example. *)
Lemma derive_total_witness :
  heap example_world !! 1%positive = Some (input_frame example_raw)
  /\ has_raw_schema (input_frame example_raw) = true
  /\ exists df' f',
       create_advanced_features any_log1p 1%positive example_world
       = (Ok df', World (<[df' := f']> (heap example_world))
                        (calls example_world)).
Proof.
  split; [reflexivity|]. split; [reflexivity|].
  destruct (derive_total any_log1p example_world 1%positive
              (input_frame example_raw)) as [H _];
    [reflexivity | reflexivity | exact H].
Defined.

(** C9 on the worked example. *)
Lemma derive_deterministic_witness :
  heap example_world !! 1%positive = Some (input_frame example_raw)
  /\ deref (create_advanced_features any_log1p 1%positive
              (snd (create_advanced_features any_log1p 1%positive
                      example_world)))
     = deref (create_advanced_features any_log1p 1%positive example_world).
Proof.
  split; [reflexivity|].
  destruct (derive_deterministic any_log1p example_world 1%positive
              (input_frame example_raw)) as [H _];
    [reflexivity | exact H].
Defined.

(** C10 on the worked example. *)
Lemma derive_works_on_a_copy_witness :
  heap example_world !! 1%positive = Some (input_frame example_raw)
  /\ heap (snd (create_advanced_features any_log1p 1%positive example_world))
       !! 1%positive
     = Some (input_frame example_raw).
Proof.
  split; [reflexivity|].
  destruct (derive_works_on_a_copy any_log1p example_world 1%positive
              (input_frame example_raw)) as [[H _] _];
    [reflexivity | exact H].
Defined.

(** ** The further properties at concrete inputs *)

(** X1 on a frame that has oldbalanceOrg only: newbalanceOrig is missing. *)
Lemma missing_column_raises_KeyError_witness :
  heap one_column_world !! 1%positive
  = Some [("oldbalanceOrg", SFloat64 [10000%float])]
  /\ read_order
     = (["oldbalanceOrg"]
        ++ "newbalanceOrig" :: ["newbalanceDest"; "oldbalanceDest"; "amount"])%list
  /\ Forall (fun k' => is_float64
                         (frame_get k' [("oldbalanceOrg", SFloat64 [10000%float])])
                       = true) ["oldbalanceOrg"]
  /\ frame_get "newbalanceOrig" [("oldbalanceOrg", SFloat64 [10000%float])]
     = None
  /\ fst (create_advanced_features any_log1p 1%positive one_column_world)
     = Raise (KeyError "newbalanceOrig").
Proof.
  assert (H : Forall (fun k' => is_float64
                (frame_get k' [("oldbalanceOrg", SFloat64 [10000%float])])
              = true) ["oldbalanceOrg"])
    by (apply Forall_cons; split; [reflexivity|apply Forall_nil_2]).
  split; [reflexivity|]. split; [reflexivity|]. split; [exact H|].
  split; [reflexivity|].
  apply (missing_column_raises_KeyError any_log1p one_column_world 1%positive
           [("oldbalanceOrg", SFloat64 [10000%float])]
           ["oldbalanceOrg"] ["newbalanceDest"; "oldbalanceDest"; "amount"]
           "newbalanceOrig");
    [reflexivity | reflexivity | exact H | reflexivity].
Defined.

(** X2 on the worked example. *)
Lemma derive_idempotent_witness :
  heap example_world !! 1%positive = Some (input_frame example_raw)
  /\ has_raw_schema (input_frame example_raw) = true
  /\ exists df1 f1,
       fst (create_advanced_features any_log1p 1%positive example_world)
       = Ok df1
       /\ heap (snd (create_advanced_features any_log1p 1%positive
                       example_world)) !! df1 = Some f1
       /\ deref (create_advanced_features any_log1p df1
                   (snd (create_advanced_features any_log1p 1%positive
                           example_world))) = Ok f1.
Proof.
  split; [reflexivity|]. split; [reflexivity|].
  apply (derive_idempotent any_log1p example_world 1%positive
           (input_frame example_raw)); reflexivity.
Defined.

(** X3 on the worked example. *)
Lemma derive_column_labels_witness :
  heap example_world !! 1%positive = Some (input_frame example_raw)
  /\ has_raw_schema (input_frame example_raw) = true
  /\ exists f',
       deref (create_advanced_features any_log1p 1%positive example_world)
       = Ok f'
       /\ frame_columns f'
          = (frame_columns (input_frame example_raw)
             ++ filter (fun k => k ∉ frame_columns (input_frame example_raw))
                  derived_columns)%list
       /\ (NoDup (frame_columns (input_frame example_raw)) ->
           NoDup (frame_columns f')).
Proof.
  split; [reflexivity|]. split; [reflexivity|].
  apply (derive_column_labels any_log1p example_world 1%positive
           (input_frame example_raw)); reflexivity.
Defined.

(** X4 on the worked example: one row. *)
Lemma derive_preserves_row_count_witness :
  heap example_world !! 1%positive = Some (input_frame example_raw)
  /\ Forall (float64_rows (input_frame example_raw) 1) read_order
  /\ exists f',
       deref (create_advanced_features any_log1p 1%positive example_world)
       = Ok f'
       /\ Forall (fun k => exists s, frame_get k f' = Some s
                                    /\ series_length s = 1) derived_columns.
Proof.
  assert (H : Forall (float64_rows (input_frame example_raw) 1) read_order).
  { unfold read_order.
    repeat (apply Forall_cons; split;
            [eexists; split; reflexivity|]).
    apply Forall_nil_2. }
  split; [reflexivity|]. split; [exact H|].
  apply (derive_preserves_row_count any_log1p example_world 1%positive
           (input_frame example_raw) 1); [reflexivity | exact H].
Defined.

(** X5 on the worked example. *)
Lemma derive_indicators_are_binary_witness :
  heap example_world !! 1%positive = Some (input_frame example_raw)
  /\ has_raw_schema (input_frame example_raw) = true
  /\ exists f',
       deref (create_advanced_features any_log1p 1%positive example_world)
       = Ok f'
       /\ Forall (fun k => exists l, frame_get k f' = Some (SInt64 l)
                                    /\ Forall (fun v => v = 0%Z \/ v = 1%Z) l)
            indicator_columns.
Proof.
  split; [reflexivity|]. split; [reflexivity|].
  destruct (derive_indicators_are_binary any_log1p example_world 1%positive
              (input_frame example_raw)) as (f' & H1 & H2 & _);
    [reflexivity | reflexivity | ].
  exists f'. split; assumption.
Defined.

(** X6 on a withdrawal (RETRAIT). *)
Lemma classifier_receives_enriched_record_witness :
  ("RETRAIT" ∈ type_labels)
  /\ exists code rest,
       dic_type !! "RETRAIT" = Some code
       /\ calls (snd (analyse any_log1p no_classifier no_classifier
                        "RETRAIT" 1000 10000 9000 0 0 initial_world))
          = (calls initial_world
             ++ CallPredict
                  (submitted_frame any_log1p
                     (RawTransaction code 1000 10000 9000 0 0)) :: rest)%list.
Proof.
  split; [by_eval|].
  destruct (classifier_receives_enriched_record any_log1p no_classifier
              no_classifier "RETRAIT" 1000 10000 9000 0 0 initial_world)
    as (code & rest & H1 & _ & H3 & _); [by_eval|].
  exists code, rest. split; assumption.
Defined.

(** X7 with a classifier that answers label 1 with probability 0.75. *)
Lemma handler_returns_label_and_fraud_probability_witness :
  dic_type !! "RETRAIT" = Some "CASH_OUT"
  /\ [1%Z] !! 0%nat = Some 1%Z
  /\ two_class_probabilities !! 0%nat = Some [0.25; 0.75]%float
  /\ [0.25; 0.75]%float !! 1%nat = Some 0.75%float
  /\ fst (analyse any_log1p (answer_with (Ok [1%Z]))
                 (answer_with (Ok two_class_probabilities))
                 "RETRAIT" 1000 10000 9000 0 0 initial_world)
     = Ok (1%Z, 0.75%float).
Proof.
  split; [reflexivity|]. split; [reflexivity|]. split; [reflexivity|].
  split; [reflexivity|].
  destruct (handler_returns_label_and_fraud_probability any_log1p
              (answer_with (Ok [1%Z]))
              (answer_with (Ok two_class_probabilities))
              "RETRAIT" "CASH_OUT" 1000 10000 9000 0 0 initial_world
              [1%Z] two_class_probabilities [0.25; 0.75]%float 1%Z
              0.75%float) as [H _];
    [ reflexivity | reflexivity | reflexivity | reflexivity | reflexivity
    | reflexivity | exact H ].
Defined.

(** X8 with a classifier whose [predict] raises [ValueError]. *)
Lemma classifier_exception_propagates_witness :
  dic_type !! "RETRAIT" = Some "CASH_OUT"
  /\ fst (analyse any_log1p
                 (answer_with (Raise (Exn "ValueError" "feature names")))
                 no_classifier
                 "RETRAIT" 1000 10000 9000 0 0 initial_world)
     = Raise (Exn "ValueError" "feature names").
Proof.
  split; [reflexivity|].
  destruct (classifier_exception_propagates any_log1p
              (answer_with (Raise (Exn "ValueError" "feature names")))
              no_classifier
              "RETRAIT" "CASH_OUT" 1000 10000 9000 0 0 initial_world
              (Exn "ValueError" "feature names")) as [H _];
    [ reflexivity | reflexivity | exact H ].
Defined.

(** X9 with a classifier fitted on one class. *)
Lemma single_class_probabilities_raise_IndexError_witness :
  dic_type !! "RETRAIT" = Some "CASH_OUT"
  /\ one_class_probabilities !! 0%nat = Some [1%float]
  /\ length [1%float] < 2
  /\ exists msg,
       fst (analyse any_log1p (answer_with (Ok [0%Z]))
                    (answer_with (Ok one_class_probabilities))
                    "RETRAIT" 1000 10000 9000 0 0 initial_world)
       = Raise (IndexError msg).
Proof.
  split; [reflexivity|]. split; [reflexivity|]. split; [simpl; lia|].
  apply (single_class_probabilities_raise_IndexError any_log1p
           (answer_with (Ok [0%Z])) (answer_with (Ok one_class_probabilities))
           "RETRAIT" "CASH_OUT" 1000 10000 9000 0 0 initial_world
           [0%Z] one_class_probabilities [1%float] 0%Z);
    try reflexivity.
  simpl. lia.
Defined.

(** X10 on the worked example. *)
Lemma exact_movement_has_zero_error_witness :
  heap example_world !! 1%positive = Some (input_frame example_raw)
  /\ raw_row (input_frame example_raw) 0 = Some example_raw
  /\ is_finite (amount example_raw) = true
  /\ exists f' d,
       deref (create_advanced_features any_log1p 1%positive example_world)
       = Ok f'
       /\ derived_row f' 0 = Some d.
Proof.
  split; [reflexivity|]. split; [reflexivity|]. split; [reflexivity|].
  destruct (exact_movement_has_zero_error any_log1p example_world 1%positive
              (input_frame example_raw) 0 example_raw)
    as (f' & d & H1 & H2 & _); try reflexivity.
  exists f', d. split; assumption.
Defined.

(** X11 on the worked example. *)
Lemma zero_old_balance_ratio_is_amount_witness :
  heap example_world !! 1%positive = Some (input_frame example_raw)
  /\ raw_row (input_frame example_raw) 0 = Some example_raw
  /\ exists f' d,
       deref (create_advanced_features any_log1p 1%positive example_world)
       = Ok f'
       /\ derived_row f' 0 = Some d
       /\ ((oldbalanceDest example_raw =? 0)%float = true ->
           amount_to_oldbalance_dest d = amount example_raw
           /\ is_zero_balance_dest d = 1%Z).
Proof.
  split; [reflexivity|]. split; [reflexivity|].
  destruct (zero_old_balance_ratio_is_amount any_log1p example_world
              1%positive (input_frame example_raw) 0 example_raw)
    as (f' & d & H1 & H2 & _ & H4); try reflexivity.
  exists f', d. split; [assumption|]. split; assumption.
Defined.


(** X13 on the worked example. *)
Lemma ratios_are_nonnegative_witness :
  heap example_world !! 1%positive = Some (input_frame example_raw)
  /\ raw_row (input_frame example_raw) 0 = Some example_raw
  /\ is_finite (amount example_raw) = true
  /\ (0 <=? amount example_raw)%float = true
  /\ (0 <=? oldbalanceOrg example_raw)%float = true
  /\ (0 <=? oldbalanceDest example_raw)%float = true
  /\ exists f' d,
       deref (create_advanced_features any_log1p 1%positive example_world)
       = Ok f'
       /\ derived_row f' 0 = Some d
       /\ (0 <=? amount_to_oldbalance_orig d)%float = true
       /\ (0 <=? amount_to_oldbalance_dest d)%float = true.
Proof.
  split; [reflexivity|]. split; [reflexivity|]. split; [reflexivity|].
  split; [reflexivity|]. split; [reflexivity|]. split; [reflexivity|].
  apply (ratios_are_nonnegative any_log1p example_world 1%positive
           (input_frame example_raw) 0 example_raw); reflexivity.
Defined.

(** X14 on the worked example. *)
Lemma zero_balances_simplify_features_witness :
  heap example_world !! 1%positive = Some (input_frame example_raw)
  /\ raw_row (input_frame example_raw) 0 = Some example_raw
  /\ exists f' d,
       deref (create_advanced_features any_log1p 1%positive example_world)
       = Ok f'
       /\ derived_row f' 0 = Some d
       /\ ((oldbalanceDest example_raw =? 0)%float = true ->
           (newbalanceDest example_raw =? 0)%float = true ->
           is_nan (amount example_raw) = false ->
           (error_balance_dest d =? - amount example_raw)%float = true).
Proof.
  split; [reflexivity|]. split; [reflexivity|].
  destruct (zero_balances_simplify_features any_log1p example_world
              1%positive (input_frame example_raw) 0 example_raw)
    as (f' & d & H1 & H2 & _ & H4); try reflexivity.
  exists f', d. split; [assumption|]. split; assumption.
Defined.
